(** * Support ticket analyzer

    A shallow embedding of [support_analyzer.py] (class [SupportAnalyzer]):
    the SQLite ticket store, the sample generator, the metrics computation,
    the weekly SQL report and the Power BI export, followed by the
    properties stated for them.

    Conventions of the embedding.
    - SQL [REAL] values and Python floats are exact rationals ([Q]); a
      result that Python rounds with [round(x, 2)] is kept in lowest terms,
      so equal numbers are equal terms.
    - A Python value that is either the integer literal [0] or a float is a
      [pynum].
    - Columns hold the values this program writes: text columns are strings,
      [DATE] columns hold a calendar date (written with
      [strftime('%Y-%m-%d')]), nullable columns are options.
    - Methods take the analyzer object and return a [result] carrying the
      updated object; [logged] collects what the module logger receives. *)

From Stdlib Require Import ZArith QArith Qround String Ascii List Lia Lqa.
From stdpp Require Import gmap strings list sorting pretty.

Local Open Scope string_scope.
Local Open Scope Z_scope.

(** ** Exceptions *)

Inductive error :=
  | NotConnected                  (* [self.conn] is [None] *)
  | NoSuchTable (name : string)   (* the statement names a missing table *)
  | DateOutOfRange                (* datetime arithmetic left years 1..9999 *)
  | ZeroDivisionError.            (* [x / 0] on Python integers *)

Inductive result (A : Type) :=
  | Ok (a : A)
  | Raise (e : error).
Arguments Ok {A} a.
Arguments Raise {A} e.

#[global] Instance result_ret : MRet result := λ A a, Ok a.
#[global] Instance result_bind : MBind result := λ A B k m,
  match m with
  | Ok a => k a
  | Raise e => Raise e
  end.
#[global] Instance result_fmap : FMap result := λ A B f m,
  match m with
  | Ok a => Ok (f a)
  | Raise e => Raise e
  end.

(** ** Python numbers *)

Inductive pynum :=
  | PInt (z : Z)
  | PFloat (q : Q).

Definition pynum_Q (x : pynum) : Q :=
  match x with
  | PInt z => inject_Z z
  | PFloat q => q
  end.

(** Nearest integer, ties to the even one. *)
Definition round_half_even (q : Q) : Z :=
  let f := Qfloor q in
  match Qcompare (q - inject_Z f) (1 # 2) with
  | Lt => f
  | Gt => f + 1
  | Eq => if Z.even f then f else f + 1
  end.

(** [round(q, 2)] on a float. *)
Definition round2 (q : Q) : Q := Qred (round_half_even (q * 100) # 100).

(** [round(x, 2)]: an [int] is returned as it is. *)
Definition py_round2 (x : pynum) : pynum :=
  match x with
  | PInt z => PInt z
  | PFloat q => PFloat (round2 q)
  end.

Definition Qsum (l : list Q) : Q := foldr Qplus 0%Q l.

(** [Series.mean()] of a non-empty float series. *)
Definition series_mean (l : list Q) : Q :=
  (Qsum l / inject_Z (Z.of_nat (length l)))%Q.

(** ** Calendar *)

Record Date := { year : Z; month : Z; day : Z }.

Record datetime := { dt_date : Date; dt_us : Z }.

Definition is_leap (y : Z) : bool :=
  (y mod 4 =? 0) && (negb (y mod 100 =? 0) || (y mod 400 =? 0)).

Definition days_before_year (y : Z) : Z :=
  let p := y - 1 in p * 365 + p / 4 - p / 100 + p / 400.

Definition DAYS_IN_MONTH : list Z :=
  [31; 28; 31; 30; 31; 30; 31; 31; 30; 31; 30; 31].

Definition DAYS_BEFORE_MONTH : list Z :=
  [0; 31; 59; 90; 120; 151; 181; 212; 243; 273; 304; 334].

Definition table_at (t : list Z) (m : Z) : Z :=
  default 0 (t !! Z.to_nat (m - 1)).

Definition days_before_month (y m : Z) : Z :=
  table_at DAYS_BEFORE_MONTH m + (if (2 <? m) && is_leap y then 1 else 0).

(** [date.toordinal()]: 0001-01-01 is day 1. *)
Definition ymd2ord (d : Date) : Z :=
  days_before_year (year d) + days_before_month (year d) (month d) + day d.

(** [date.fromordinal(n)]. *)
Definition ord2ymd (n : Z) : Date :=
  let n := n - 1 in
  let n400 := n / 146097 in
  let n := n mod 146097 in
  let n100 := n / 36524 in
  let n := n mod 36524 in
  let n4 := n / 1461 in
  let n := n mod 1461 in
  let n1 := n / 365 in
  let n := n mod 365 in
  let y := n400 * 400 + 1 + n100 * 100 + n4 * 4 + n1 in
  if (n1 =? 4) || (n100 =? 4) then {| year := y - 1; month := 12; day := 31 |}
  else
    let leapyear := (n1 =? 3) && (negb (n4 =? 24) || (n100 =? 3)) in
    let m := Z.shiftr (n + 50) 5 in
    let preceding :=
      table_at DAYS_BEFORE_MONTH m + (if (2 <? m) && leapyear then 1 else 0) in
    if n <? preceding then
      let m := m - 1 in
      let preceding :=
        preceding
        - (table_at DAYS_IN_MONTH m + (if (m =? 2) && leapyear then 1 else 0)) in
      {| year := y; month := m; day := n - preceding + 1 |}
    else {| year := y; month := m; day := n - preceding + 1 |}.

Definition MINORDINAL : Z := 1.
Definition MAXORDINAL : Z := 3652059.
Definition US_PER_DAY : Z := 86400000000.
Definition US_PER_HOUR : Z := 3600000000.

(** [dt + timedelta(microseconds = us)], which raises outside years 1..9999. *)
Definition datetime_add_us (dt : datetime) (us : Z) : result datetime :=
  let total := ymd2ord (dt_date dt) * US_PER_DAY + dt_us dt + us in
  let ord := total / US_PER_DAY in
  if (MINORDINAL <=? ord) && (ord <=? MAXORDINAL)
  then Ok {| dt_date := ord2ymd ord; dt_us := total mod US_PER_DAY |}
  else Raise DateOutOfRange.

(** [timedelta(days = k)] and [timedelta(hours = h)] in microseconds; a
    fractional number of hours is rounded to the nearest microsecond. *)
Definition timedelta_days (k : Z) : Z := k * US_PER_DAY.
Definition timedelta_hours (h : Q) : Z :=
  round_half_even (h * inject_Z US_PER_HOUR).

(** Zero-padded decimal: [f'{n:04d}'] and C's [%04d] on a non-negative [n]. *)
Fixpoint zeros (k : nat) : string :=
  match k with
  | O => ""
  | S k => String "0" (zeros k)
  end.

Definition fmt_d (width : nat) (n : Z) : string :=
  let s := pretty n in zeros (width - String.length s) +:+ s.

(** [strftime('%Y-%m-%d')]. *)
Definition strftime_Ymd (d : Date) : string :=
  fmt_d 4 (year d) +:+ "-" +:+ fmt_d 2 (month d) +:+ "-" +:+ fmt_d 2 (day d).

(** [datetime.isoformat()]. *)
Definition isoformat (dt : datetime) : string :=
  let us := dt_us dt in
  let hh := us / US_PER_HOUR in
  let mm := us / 60000000 mod 60 in
  let ss := us / 1000000 mod 60 in
  let frac := us mod 1000000 in
  strftime_Ymd (dt_date dt) +:+ "T" +:+ fmt_d 2 hh +:+ ":" +:+ fmt_d 2 mm
    +:+ ":" +:+ fmt_d 2 ss
    +:+ (if frac =? 0 then "" else "." +:+ fmt_d 6 frac).

(** Days since the last Monday (Monday is 0): [date.weekday()]. *)
Definition weekday (d : Date) : Z := (ymd2ord d + 6) mod 7.

(** Days since 1 January of the same year. *)
Definition days_after_jan01 (d : Date) : Z :=
  days_before_month (year d) (month d) + day d - 1.

(** SQLite's [%W]: week of the year, 00 to 53, where week 01 starts on the
    first Monday of the year. *)
Definition week_of_year (d : Date) : Z :=
  (days_after_jan01 d - weekday d + 7) / 7.

(** SQLite's [strftime('%Y-%W', fecha)]. *)
Definition strftime_YW (d : Date) : string :=
  fmt_d 4 (year d) +:+ "-" +:+ fmt_d 2 (week_of_year d).

(** ** The ticket store (SQLite) *)

(** A row of [tickets], without its [id] column. *)
Record Ticket := {
  ticket_id : string;
  fecha_creacion : Date;
  fecha_resolucion : option Date;
  categoria : string;
  prioridad : string;
  estado : string;
  agente_asignado : string;
  tiempo_resolucion_horas : option Q;
  canal : string;
  satisfaccion_cliente : option Z;
  descripcion : string
}.

(** A row of [metricas_diarias], without its [id] column. *)
Record MetricaDiaria := {
  fecha : Date;
  md_tickets_abiertos : Z;
  md_tickets_resueltos : Z;
  tiempo_promedio_resolucion : Q;
  md_satisfaccion_promedio : Q;
  md_tickets_por_categoria : string
}.

(** A table with an [INTEGER PRIMARY KEY AUTOINCREMENT] column: its rows in
    [id] order, each with its [id], and the largest [id] handed out so far
    (the table's entry in [sqlite_sequence]). *)
Record Table (R : Type) := {
  rows : list (Z * R);
  sequence : Z
}.
Arguments rows {R} t.
Arguments sequence {R} t.

(** The database behind a connection; [None] is a table that does not
    exist. *)
Record Database := {
  tickets : option (Table Ticket);
  metricas_diarias : option (Table MetricaDiaria)
}.

(** [CREATE TABLE IF NOT EXISTS]. *)
Definition create_table_if_not_exists {R} (t : option (Table R)) :
    option (Table R) :=
  match t with
  | Some t => Some t
  | None => Some {| rows := []; sequence := 0 |}
  end.

Definition max_rowid {R} (rs : list (Z * R)) : Z :=
  foldr (λ r m, Z.max r.1 m) 0 rs.

(** The [UNIQUE] constraint on [ticket_id]. *)
Definition ticket_id_taken (tid : string) (t : Table Ticket) : bool :=
  bool_decide (tid ∈ (ticket_id ∘ snd) <$> rows t).

(** [INSERT OR IGNORE INTO tickets (...) VALUES (...)] on an existing
    table: a new [id] is drawn, and the row is stored unless its
    [ticket_id] is taken, in which case the statement does nothing more. *)
Definition insert_or_ignore (r : Ticket) (t : Table Ticket) : Table Ticket :=
  let v := Z.max (max_rowid (rows t)) (sequence t) + 1 in
  if ticket_id_taken (ticket_id r) t
  then {| rows := rows t; sequence := v |}
  else {| rows := rows t ++ [(v, r)]; sequence := v |}.

(** [cursor.execute('INSERT OR IGNORE INTO tickets ...', values)]. *)
Definition execute_insert (r : Ticket) (db : Database) : result Database :=
  match tickets db with
  | None => Raise (NoSuchTable "tickets")
  | Some t =>
      Ok {| tickets := Some (insert_or_ignore r t);
            metricas_diarias := metricas_diarias db |}
  end.

(** ** The analyzer object *)

Record Metrics := {
  total_tickets : Z;
  tickets_resueltos : Z;
  tickets_abiertos : Z;
  tasa_resolucion : pynum;
  tiempo_promedio_resolucion_horas : pynum;
  satisfaccion_promedio : pynum;
  sla_24h : pynum;
  tickets_por_categoria : gmap string Z;
  tickets_por_prioridad : gmap string Z;
  tickets_por_canal : gmap string Z
}.

(** [metrics] is [None] for the empty dictionary of [__init__]. *)
Record SupportAnalyzer := {
  db_path : string;
  conn : option Database;
  metrics : option Metrics;
  logged : list string
}.

Definition logger_info (msg : string) (self : SupportAnalyzer) :
    SupportAnalyzer :=
  {| db_path := db_path self; conn := conn self; metrics := metrics self;
     logged := logged self ++ [msg] |}.

Definition set_conn (db : Database) (self : SupportAnalyzer) :
    SupportAnalyzer :=
  {| db_path := db_path self; conn := Some db; metrics := metrics self;
     logged := logged self |}.

Definition set_metrics (m : Metrics) (self : SupportAnalyzer) :
    SupportAnalyzer :=
  {| db_path := db_path self; conn := conn self; metrics := Some m;
     logged := logged self |}.

(** [self.conn.cursor()]. *)
Definition cursor (self : SupportAnalyzer) : result Database :=
  match conn self with
  | Some db => Ok db
  | None => Raise NotConnected
  end.

(** [create_tables]. *)
Definition create_tables (self : SupportAnalyzer) :
    result (unit * SupportAnalyzer) :=
  db ← cursor self;
  let db := {| tickets := create_table_if_not_exists (tickets db);
               metricas_diarias := metricas_diarias db |} in
  let db := {| tickets := tickets db;
               metricas_diarias :=
                 create_table_if_not_exists (metricas_diarias db) |} in
  Ok (tt, logger_info "Tablas creadas exitosamente" (set_conn db self)).

(** ** The sample generator *)

(** [numpy.random]: the generator state and the draws the program makes.
    [rs_choice a p] is [np.random.choice(a, p=p)], uniform when [p] is
    [None]. *)
Class RandomState (G : Type) := {
  rs_seed : Z → G;
  rs_randint : Z → Z → G → Z * G;
  rs_exponential : Q → G → Q * G;
  rs_random : G → Q * G;
  rs_choice : list string → option (list Q) → G → string * G
}.

(** [np.random.choice] returns an element of the sequence it is given. *)
Definition ChoiceFromList `{RandomState G} : Prop :=
  ∀ (a : list string) (p : option (list Q)) (g : G),
    a ≠ [] → (rs_choice a p g).1 ∈ a.

Definition categorias : list string :=
  ["Hardware"; "Software"; "Red"; "Acceso"; "Email"; "Impresora"].
Definition prioridades : list string := ["Baja"; "Media"; "Alta"; "Crítica"].
Definition estados : list string :=
  ["Abierto"; "En Progreso"; "Resuelto"; "Cerrado"].
Definition canales : list string :=
  ["Email"; "Teléfono"; "Chat"; "Portal"; "Slack"].
Definition agentes : list string :=
  ["Agente1"; "Agente2"; "Agente3"; "Agente4"].

Section Generator.
Context `{RandomState G}.

(** The body of the loop of [insert_sample_tickets], up to the values
    handed to [cursor.execute], for the index [i]. *)
Definition sample_ticket (base_date : datetime) (i : Z) (g : G) :
    result (Ticket * G) :=
  let '(k, g) := rs_randint 0 60 g in
  creacion ← datetime_add_us base_date (timedelta_days k);
  let '(tiempo_resolucion, g) := rs_exponential 24 g in
  let '(u, g) := rs_random g in
  '(resolucion, est, g) ←
    (if negb (Qle_bool u (2 # 10))
     then
       r ← datetime_add_us creacion (timedelta_hours tiempo_resolucion);
       let '(e, g) :=
         rs_choice ["Resuelto"; "Cerrado"] (Some [7 # 10; 3 # 10]%Q) g in
       Ok (Some r, e, g)
     else
       let '(e, g) :=
         rs_choice ["Abierto"; "En Progreso"] (Some [3 # 10; 7 # 10]%Q) g in
       Ok (None, e, g));
  let '(satisfaccion, g) :=
    match resolucion with
    | Some _ => let '(s, g) := rs_randint 1 6 g in (Some s, g)
    | None => (None, g)
    end in
  let '(cat, g) := rs_choice categorias None g in
  let '(pri, g) :=
    rs_choice prioridades (Some [3 # 10; 4 # 10; 2 # 10; 1 # 10]%Q) g in
  let '(age, g) := rs_choice agentes None g in
  let '(can, g) := rs_choice canales None g in
  Ok ({| ticket_id := "TICK-" +:+ fmt_d 4 (i + 1);
         fecha_creacion := dt_date creacion;
         fecha_resolucion := dt_date <$> resolucion;
         categoria := cat;
         prioridad := pri;
         estado := est;
         agente_asignado := age;
         tiempo_resolucion_horas :=
           match resolucion with
           | Some _ => Some tiempo_resolucion
           | None => None
           end;
         canal := can;
         satisfaccion_cliente := satisfaccion;
         descripcion := "Ticket de ejemplo " +:+ pretty (i + 1) |}, g).

(** [for i in range(n_tickets): ... cursor.execute(...)], over the
    indices still to visit. *)
Fixpoint insert_loop (base_date : datetime) (indices : list Z) (g : G)
    (db : Database) : result Database :=
  match indices with
  | [] => Ok db
  | i :: indices =>
      '(r, g) ← sample_ticket base_date i g;
      db ← execute_insert r db;
      insert_loop base_date indices g db
  end.

(** [range(n)]. *)
Definition range (n : Z) : list Z := Z.of_nat <$> seq 0 (Z.to_nat n).

(** [insert_sample_tickets], with [datetime.now()] as [now]. *)
Definition insert_sample_tickets (now : datetime) (n_tickets : Z)
    (self : SupportAnalyzer) : result (unit * SupportAnalyzer) :=
  let self :=
    logger_info ("Generando " +:+ pretty n_tickets +:+ " tickets de ejemplo...")
      self in
  let g := rs_seed 42 in
  db ← cursor self;
  base_date ← datetime_add_us now (- timedelta_days 60);
  db ← insert_loop base_date (range n_tickets) g db;
  Ok (tt, logger_info (pretty n_tickets +:+ " tickets insertados")
            (set_conn db self)).
End Generator.

(** ** Metrics *)

(** [pd.read_sql_query('SELECT ... FROM tickets', self.conn)]: the rows of
    the table in [id] order. *)
Definition read_sql_query_tickets (self : SupportAnalyzer) :
    result (list Ticket) :=
  db ← cursor self;
  match tickets db with
  | Some t => Ok (snd <$> rows t)
  | None => Raise (NoSuchTable "tickets")
  end.

(** [estado IN ('Resuelto', 'Cerrado')], in pandas
    [.isin(['Resuelto', 'Cerrado'])]. *)
Definition resuelto (t : Ticket) : Prop := estado t ∈ ["Resuelto"; "Cerrado"].

#[global] Instance resuelto_dec t : Decision (resuelto t).
Proof. unfold resuelto. apply _. Defined.

(** [Series.value_counts().to_dict()]. *)
Definition value_counts (col : list string) : gmap string Z :=
  foldr (λ k m, <[k := default 0 (m !! k) + 1]> m) ∅ col.

Definition len {A} (l : list A) : Z := Z.of_nat (length l).

(** [x / y * 100] on Python integers: true division, which raises on a
    zero divisor. *)
Definition percent (x y : Z) : result Q :=
  if y =? 0 then Raise ZeroDivisionError
  else Ok (inject_Z x / inject_Z y * 100)%Q.

(** The dictionary built by [calculate_metrics] from the data frame. *)
Definition metrics_of_frame (df : list Ticket) : result Metrics :=
  let total_tickets := len df in
  let tickets_resueltos := len (filter resuelto df) in
  let tickets_abiertos := total_tickets - tickets_resueltos in
  tasa_resolucion ←
    (if 0 <? total_tickets
     then PFloat <$> percent tickets_resueltos total_tickets
     else Ok (PInt 0));
  let tiempos_resueltos := omap tiempo_resolucion_horas df in
  let tiempo_promedio :=
    if 0 <? len tiempos_resueltos
    then PFloat (series_mean tiempos_resueltos)
    else PInt 0 in
  let satisfacciones := inject_Z <$> omap satisfaccion_cliente df in
  let satisfaccion_promedio :=
    if 0 <? len satisfacciones
    then PFloat (series_mean satisfacciones)
    else PInt 0 in
  let tickets_por_categoria := value_counts (categoria <$> df) in
  let tickets_por_prioridad := value_counts (prioridad <$> df) in
  let tickets_por_canal := value_counts (canal <$> df) in
  sla_24h ←
    (if 0 <? len tiempos_resueltos
     then PFloat <$>
            percent (len (filter (λ h, Qle_bool h 24) tiempos_resueltos))
                    (len tiempos_resueltos)
     else Ok (PInt 0));
  Ok
  {| total_tickets := total_tickets;
     tickets_resueltos := tickets_resueltos;
     tickets_abiertos := tickets_abiertos;
     tasa_resolucion := py_round2 tasa_resolucion;
     tiempo_promedio_resolucion_horas := py_round2 tiempo_promedio;
     satisfaccion_promedio := py_round2 satisfaccion_promedio;
     sla_24h := py_round2 sla_24h;
     tickets_por_categoria := tickets_por_categoria;
     tickets_por_prioridad := tickets_por_prioridad;
     tickets_por_canal := tickets_por_canal |}.

(** [calculate_metrics]. *)
Definition calculate_metrics (self : SupportAnalyzer) :
    result (Metrics * SupportAnalyzer) :=
  let self := logger_info "Calculando métricas de soporte..." self in
  df ← read_sql_query_tickets self;
  m ← metrics_of_frame df;
  let self := set_metrics m self in
  let self := logger_info "Métricas calculadas exitosamente" self in
  Ok (m, self).

(** ** Weekly trend (third query of [generate_sql_report]) *)

Definition WeekRow : Type := string * Z * Z.

Definition count_if (b : bool) : Z := if b then 1 else 0.

Section Weekly.
(** The grouping expression, [strftime('%Y-%W', fecha_creacion)] in the
    query. *)
Variable semana : Ticket → string.

(** One row enters the aggregation: the groups are kept in descending
    order of their key, each with [COUNT] and the conditional [COUNT]. *)
Fixpoint aggregate (k : string) (res : bool) (groups : list WeekRow) :
    list WeekRow :=
  match groups with
  | [] => [(k, 1, count_if res)]
  | (k', c, r) :: rest =>
      if decide (k = k') then (k', c + 1, r + count_if res) :: rest
      else if decide (String.le k' k) then (k, 1, count_if res) :: groups
      else (k', c, r) :: aggregate k res rest
  end.

(** [GROUP BY semana ORDER BY semana DESC]. *)
Definition group_by_semana (ts : list Ticket) : list WeekRow :=
  foldl (λ groups t, aggregate (semana t) (bool_decide (resuelto t)) groups)
    [] ts.

(** [... LIMIT 8]. *)
Definition weekly_trend (ts : list Ticket) : list WeekRow :=
  take 8 (group_by_semana ts).
End Weekly.

(** [generate_sql_report()['tendencia_semanal']]. *)
Definition tendencia_semanal (self : SupportAnalyzer) :
    result (list WeekRow) :=
  ts ← read_sql_query_tickets self;
  Ok (weekly_trend (strftime_YW ∘ fecha_creacion) ts).

(** ISO 8601 week date of a calendar date ([date.isocalendar()]): weeks
    start on Monday and week 1 of a year is the one holding its first
    Thursday. *)
Definition iso_week1_monday (y : Z) : Z :=
  let firstday := ymd2ord {| year := y; month := 1; day := 1 |} in
  let firstweekday := (firstday + 6) mod 7 in
  let week1monday := firstday - firstweekday in
  if 3 <? firstweekday then week1monday + 7 else week1monday.

Definition isocalendar (d : Date) : Z * Z :=
  let y := year d in
  let today := ymd2ord d in
  let week := (today - iso_week1_monday y) / 7 in
  if week <? 0 then
    (y - 1, (today - iso_week1_monday (y - 1)) / 7 + 1)
  else if (52 <=? week) && (iso_week1_monday (y + 1) <=? today) then
    (y + 1, 1)
  else (y, week + 1).

(** The key of the ISO week of a date, as [strftime('%G-%V')] writes it. *)
Definition iso_week_key (d : Date) : string :=
  let '(y, w) := isocalendar d in fmt_d 4 y +:+ "-" +:+ fmt_d 2 w.

(** ** Power BI export *)

#[local] Set Warnings "-register-all".

(** The Python values that reach [json.dump]. *)
Inductive pyval :=
  | PyNone
  | PyInt (z : Z)
  | PyFloat (q : Q)
  | PyNaN
  | PyStr (s : string)
  | PyList (l : list pyval)
  | PyDict (d : list (string * pyval)).

(** A JSON document as [json.dump] writes it and [json.load] reads it: a
    number keeps whether it was written as an integer or with a fraction,
    and [NaN] is the token Python writes for a float that is not a
    number. *)
Inductive json :=
  | JNull
  | JInteger (z : Z)
  | JFraction (q : Q)
  | JNaN
  | JString (s : string)
  | JArray (l : list json)
  | JObject (d : list (string * json)).

(** [json.dump(v, f, indent=2, ensure_ascii=False, default=str)]; every
    value of [pyval] is serialisable, so [default] is never called. *)
Fixpoint json_dump (v : pyval) : json :=
  match v with
  | PyNone => JNull
  | PyInt z => JInteger z
  | PyFloat q => JFraction q
  | PyNaN => JNaN
  | PyStr s => JString s
  | PyList l => JArray (map json_dump l)
  | PyDict d => JObject (map (λ kv, (kv.1, json_dump kv.2)) d)
  end.




Definition py_keys (v : pyval) : option (list string) :=
  match v with
  | PyDict d => Some (d.*1)
  | _ => None
  end.

Definition py_of_num (x : pynum) : pyval :=
  match x with
  | PInt z => PyInt z
  | PFloat q => PyFloat q
  end.

Definition py_of_counts (m : gmap string Z) : pyval :=
  PyDict (prod_map id PyInt <$> map_to_list m).

(** [self.metrics] as a Python dictionary. *)
Definition py_of_metrics (m : option Metrics) : pyval :=
  match m with
  | None => PyDict []
  | Some m =>
      PyDict
        [("total_tickets", PyInt (total_tickets m));
         ("tickets_resueltos", PyInt (tickets_resueltos m));
         ("tickets_abiertos", PyInt (tickets_abiertos m));
         ("tasa_resolucion", py_of_num (tasa_resolucion m));
         ("tiempo_promedio_resolucion_horas",
           py_of_num (tiempo_promedio_resolucion_horas m));
         ("satisfaccion_promedio", py_of_num (satisfaccion_promedio m));
         ("sla_24h", py_of_num (sla_24h m));
         ("tickets_por_categoria", py_of_counts (tickets_por_categoria m));
         ("tickets_por_prioridad", py_of_counts (tickets_por_prioridad m));
         ("tickets_por_canal", py_of_counts (tickets_por_canal m))]
  end.

(** [pd.read_sql_query('SELECT * FROM tickets', self.conn)], rows with
    their [id]. *)
Definition read_sql_query_all (self : SupportAnalyzer) :
    result (list (Z * Ticket)) :=
  db ← cursor self;
  match tickets db with
  | Some t => Ok (rows t)
  | None => Raise (NoSuchTable "tickets")
  end.

Definition is_null {A} (o : option A) : bool :=
  match o with
  | None => true
  | Some _ => false
  end.

(** How pandas types a nullable column of a query result: a column of
    nulls only keeps [None]; a [REAL] column with a null is [float64] with
    [NaN]; an [INTEGER] column with a null becomes [float64] as well. *)
Definition py_text (v : option string) : pyval :=
  match v with
  | Some s => PyStr s
  | None => PyNone
  end.

Definition py_real (col : list (option Q)) (v : option Q) : pyval :=
  match v with
  | Some q => PyFloat q
  | None => if forallb is_null col then PyNone else PyNaN
  end.

Definition py_integer (col : list (option Z)) (v : option Z) : pyval :=
  match v with
  | Some z => if existsb is_null col then PyFloat (inject_Z z) else PyInt z
  | None => if forallb is_null col then PyNone else PyNaN
  end.

(** [df.to_dict('records')]. *)
Definition to_dict_records (df : list (Z * Ticket)) : list pyval :=
  let horas := (tiempo_resolucion_horas ∘ snd) <$> df in
  let satisf := (satisfaccion_cliente ∘ snd) <$> df in
  (λ r : Z * Ticket,
     let t := r.2 in
     PyDict
       [("id", PyInt r.1);
        ("ticket_id", PyStr (ticket_id t));
        ("fecha_creacion", PyStr (strftime_Ymd (fecha_creacion t)));
        ("fecha_resolucion", py_text (strftime_Ymd <$> fecha_resolucion t));
        ("categoria", PyStr (categoria t));
        ("prioridad", PyStr (prioridad t));
        ("estado", PyStr (estado t));
        ("agente_asignado", PyStr (agente_asignado t));
        ("tiempo_resolucion_horas",
          py_real horas (tiempo_resolucion_horas t));
        ("canal", PyStr (canal t));
        ("satisfaccion_cliente",
          py_integer satisf (satisfaccion_cliente t));
        ("descripcion", PyStr (descripcion t))]) <$> df.

(** [Series.min()] and [Series.max()] on a column of strings; [NaN] when
    the column is empty. *)
Definition str_min (a b : string) : string :=
  if decide (String.le a b) then a else b.
Definition str_max (a b : string) : string :=
  if decide (String.le a b) then b else a.

Definition series_min (col : list string) : pyval :=
  match col with
  | [] => PyNaN
  | s :: col => PyStr (foldl str_min s col)
  end.

Definition series_max (col : list string) : pyval :=
  match col with
  | [] => PyNaN
  | s :: col => PyStr (foldl str_max s col)
  end.

(** The dictionary [powerbi_data]. *)
Definition powerbi_data (now : datetime) (self : SupportAnalyzer)
    (df : list (Z * Ticket)) : pyval :=
  let creacion := (strftime_Ymd ∘ fecha_creacion ∘ snd) <$> df in
  PyDict
    [("timestamp", PyStr (isoformat now));
     ("metrics", py_of_metrics (metrics self));
     ("tickets", PyList (to_dict_records df));
     ("summary",
       PyDict
         [("total_tickets", PyInt (len df));
          ("date_range",
            PyDict [("start", series_min creacion);
                    ("end", series_max creacion)])])].

(** [export_for_powerbi], with [datetime.now()] as [now] and the files on
    disk as [fs]: the document replaces whatever [output_path] held. *)
Definition export_for_powerbi (now : datetime) (output_path : string)
    (fs : gmap string json) (self : SupportAnalyzer) :
    result (string * gmap string json * SupportAnalyzer) :=
  let self := logger_info "Exportando datos para Power BI..." self in
  df ← read_sql_query_all self;
  let fs := <[output_path := json_dump (powerbi_data now self df)]> fs in
  let self := logger_info ("Datos exportados a: " +:+ output_path) self in
  Ok (output_path, fs, self).

(** ** Concrete inputs for the examples *)

Definition ymd (y m d : Z) : Date := {| year := y; month := m; day := d |}.

(** A ticket with the fields the metrics read; the others are fixed. *)
Definition ticket (tid : string) (creacion : Date) (est : string)
    (horas : option Q) (satisf : option Z) : Ticket :=
  {| ticket_id := tid;
     fecha_creacion := creacion;
     fecha_resolucion := None;
     categoria := "Red";
     prioridad := "Media";
     estado := est;
     agente_asignado := "Agente1";
     tiempo_resolucion_horas := horas;
     canal := "Chat";
     satisfaccion_cliente := satisf;
     descripcion := "" |}.

Definition table_of (ts : list Ticket) : Table Ticket :=
  {| rows := zip (Z.of_nat <$> seq 1 (length ts)) ts; sequence := len ts |}.

Definition database_of (ts : list Ticket) : Database :=
  {| tickets := Some (table_of ts);
     metricas_diarias := Some {| rows := []; sequence := 0 |} |}.

(** A connected analyzer, as [__init__] leaves it, whose database holds
    the given tickets. *)
Definition analyzer_on (ts : list Ticket) : SupportAnalyzer :=
  {| db_path := "support_tickets.db";
     conn := Some (database_of ts);
     metrics := None;
     logged := [] |}.

(** A connected analyzer on a database without tables. *)
Definition analyzer_fresh : SupportAnalyzer :=
  {| db_path := "support_tickets.db";
     conn := Some {| tickets := None; metricas_diarias := None |};
     metrics := None;
     logged := [] |}.

Definition scenario_tickets : list Ticket :=
  [ticket "TICK-0001" (ymd 2024 1 1) "Resuelto" (Some 10%Q) (Some 5);
   ticket "TICK-0002" (ymd 2024 1 2) "Cerrado" (Some 20%Q) (Some 4);
   ticket "TICK-0003" (ymd 2024 1 9) "Resuelto" (Some 30%Q) (Some 3);
   ticket "TICK-0004" (ymd 2024 2 1) "Cerrado" (Some 50%Q) (Some 2);
   ticket "TICK-0005" (ymd 2024 1 20) "En Progreso" None None].

(** Two tickets created on the Thursday and the Friday of one ISO week
    (2020-W53) that lie in different calendar years. *)
Definition new_year_tickets : list Ticket :=
  [ticket "TICK-0001" (ymd 2020 12 31) "Resuelto" (Some 10%Q) (Some 5);
   ticket "TICK-0002" (ymd 2021 1 1) "Resuelto" (Some 20%Q) (Some 4)].

Definition noon (d : Date) : datetime :=
  {| dt_date := d; dt_us := 12 * US_PER_HOUR |}.

(** A small linear congruential generator, used to run the sample
    generator on concrete inputs. *)
Definition lcg_step (s : Z) : Z := (1103515245 * s + 12345) mod 2147483648.

Definition lcg_random : RandomState Z :=
  {| rs_seed z := z mod 2147483648;
     rs_randint lo hi s :=
       let s := lcg_step s in (lo + s mod (hi - lo), s);
     rs_exponential scale s :=
       let s := lcg_step s in ((scale * (s mod 4096 # 1024))%Q, s);
     rs_random s :=
       let s := lcg_step s in (s mod 1000 # 1000, s);
     rs_choice a p s :=
       let s := lcg_step s in (default "" (a !! Z.to_nat (s mod len a)), s) |}.

(** The analyzer after [insert_sample_tickets(6)] on empty tables, drawn
    with the generator above at noon of 1 June 2024. *)
Definition sampled_analyzer : SupportAnalyzer :=
  Eval vm_compute in
    match @insert_sample_tickets Z lcg_random (noon (ymd 2024 6 1)) 6
            (analyzer_on []) with
    | Ok (_, self) => self
    | Raise _ => analyzer_on []
    end.

(** ** Predicates used in the statements *)

(** The resolution date, the resolution time and the satisfaction of a
    ticket are present together, and exactly on a ticket whose status is
    Resuelto or Cerrado. *)
Definition ticket_invariant (r : Ticket) : Prop :=
  (is_Some (fecha_resolucion r) ↔ is_Some (tiempo_resolucion_horas r))
  ∧ (is_Some (fecha_resolucion r) ↔ is_Some (satisfaccion_cliente r))
  ∧ (is_Some (fecha_resolucion r) ↔ resuelto r).

(** The key of a row of the weekly report. *)
Definition week_key (r : WeekRow) : string := r.1.1.

(** Rows in strictly descending order of their key. *)
Definition key_desc (r1 r2 : WeekRow) : Prop :=
  strict String.le (week_key r2) (week_key r1).

Section WeeklyCounts.
Variable semana : Ticket → string.

(** The tickets created in week [k], and those of them that are
    resolved. *)
Definition creados (k : string) (ts : list Ticket) : Z :=
  len (filter (λ t, semana t = k) ts).
Definition resueltos_en (k : string) (ts : list Ticket) : Z :=
  len (filter (λ t, semana t = k ∧ resuelto t) ts).

(** What the aggregation holds after the tickets [ts] went through: the
    groups in strictly descending order of their key, each with the
    counts of its week, and a group for every ticket. *)
Definition groups_of (ts : list Ticket) (groups : list WeekRow) : Prop :=
  StronglySorted key_desc groups
  ∧ (∀ k c r, (k, c, r) ∈ groups →
       0 < c ∧ c = creados k ts ∧ r = resueltos_en k ts)
  ∧ (∀ t, t ∈ ts → ∃ c r, (semana t, c, r) ∈ groups).
End WeeklyCounts.

(** ** Constraints of the ticket table *)

(** The [UNIQUE] and [PRIMARY KEY AUTOINCREMENT] constraints of [tickets]:
    no two rows share a [ticket_id], no two rows share an [id], and every
    [id] is positive and at most the largest one handed out. *)
Definition table_ok (t : Table Ticket) : Prop :=
  NoDup ((ticket_id ∘ snd) <$> rows t)
  ∧ NoDup (fst <$> rows t)
  ∧ Forall (λ x, 0 < x.1 ≤ sequence t) (rows t).

(** [np.random.randint(lo, hi)] lies in the half-open interval. *)
Definition RandintInRange `{RandomState G} : Prop :=
  ∀ (lo hi : Z) (g : G), lo < hi →
    lo ≤ (rs_randint lo hi g).1 < hi.

(** The [ticket_id] written for the index [i]: [f'TICK-{i+1:04d}']. *)
Definition tick_id (i : Z) : string := "TICK-" +:+ fmt_d 4 (i + 1).

(** The values the generator draws its categorical fields from, and the
    range of the satisfaction it draws. *)
Definition ticket_in_domain (r : Ticket) : Prop :=
  categoria r ∈ categorias
  ∧ prioridad r ∈ prioridades
  ∧ estado r ∈ estados
  ∧ canal r ∈ canales
  ∧ agente_asignado r ∈ agentes
  ∧ (∀ s, satisfaccion_cliente r = Some s → 1 ≤ s ≤ 5).

(** The analyzer after a second [insert_sample_tickets(4)] on
    [sampled_analyzer], a day later. *)
Definition sampled_again : SupportAnalyzer :=
  Eval vm_compute in
    match @insert_sample_tickets Z lcg_random (noon (ymd 2024 6 2)) 4
            sampled_analyzer with
    | Ok (_, self) => self
    | Raise _ => sampled_analyzer
    end.

(** The sum of the counts of a grouped mapping. *)
Definition counts_total (m : gmap string Z) : Z :=
  map_fold (λ _ c s, c + s) 0 m.

(** A ticket with a resolution time of at most 24 hours. *)
Definition within_24h (t : Ticket) : bool :=
  match tiempo_resolucion_horas t with
  | Some h => Qle_bool h 24
  | None => false
  end.

(** The created and the resolved tickets of a weekly report, summed over
    its rows. *)
Definition sum_creados (out : list WeekRow) : Z :=
  foldr (λ r s, r.1.2 + s) 0 out.
Definition sum_resueltos (out : list WeekRow) : Z :=
  foldr (λ r s, r.2 + s) 0 out.

(** [analyzer_fresh] after [create_tables], and then after
    [insert_sample_tickets(3)]. *)
Definition created_analyzer : SupportAnalyzer :=
  Eval vm_compute in
    match create_tables analyzer_fresh with
    | Ok (_, self) => self
    | Raise _ => analyzer_fresh
    end.

Definition generated_analyzer : SupportAnalyzer :=
  Eval vm_compute in
    match @insert_sample_tickets Z lcg_random (noon (ymd 2024 6 1)) 3
            created_analyzer with
    | Ok (_, self) => self
    | Raise _ => created_analyzer
    end.

(** * Properties *)

(** ** Shared lemmas *)

Lemma bind_Ok {A B} (m : result A) (k : A → result B) (b : B) :
  m ≫= k = Ok b → ∃ a, m = Ok a ∧ k a = Ok b.
Proof. destruct m as [a|e]; [eauto | discriminate]. Qed.

Lemma percent_Ok (x y : Z) :
  0 < y → percent x y = Ok (inject_Z x / inject_Z y * 100)%Q.
Proof.
  intros Hy. unfold percent.
  destruct (Z.eqb_spec y 0) as [->|_]; [lia | reflexivity].
Qed.

Lemma read_sql_query_tickets_connected self db t :
  conn self = Some db → tickets db = Some t →
  read_sql_query_tickets self = Ok (snd <$> rows t).
Proof.
  intros Hc Ht. unfold read_sql_query_tickets, cursor.
  rewrite Hc. simpl. by rewrite Ht.
Qed.

(** The guards of [calculate_metrics] keep every division defined. *)
Lemma metrics_of_frame_Ok (df : list Ticket) :
  ∃ m, metrics_of_frame df = Ok m.
Proof.
  unfold metrics_of_frame.
  destruct (Z.ltb_spec 0 (len df)) as [Hn|Hn];
    [rewrite (percent_Ok _ _ Hn)|]; simpl;
    (destruct (Z.ltb_spec 0 (len (omap tiempo_resolucion_horas df)))
       as [Hh|Hh]; [rewrite (percent_Ok _ _ Hh)|]); simpl; eauto.
Qed.

Lemma calculate_metrics_connected self db t m :
  conn self = Some db → tickets db = Some t →
  metrics_of_frame (snd <$> rows t) = Ok m →
  calculate_metrics self =
    Ok (m, logger_info "Métricas calculadas exitosamente"
             (set_metrics m
                (logger_info "Calculando métricas de soporte..." self))).
Proof.
  intros Hc Ht Hm. unfold calculate_metrics.
  rewrite (read_sql_query_tickets_connected _ db t) by done.
  simpl. rewrite Hm. reflexivity.
Qed.

Lemma calculate_metrics_inv self m self' :
  calculate_metrics self = Ok (m, self') →
  ∃ df, read_sql_query_tickets self = Ok df ∧ metrics_of_frame df = Ok m
    ∧ self' = logger_info "Métricas calculadas exitosamente"
                (set_metrics m
                   (logger_info "Calculando métricas de soporte..." self)).
Proof.
  unfold calculate_metrics. intros Hrun.
  apply bind_Ok in Hrun as (df & Hdf & Hrun).
  apply bind_Ok in Hrun as (m' & Hm & Hrun).
  injection Hrun as -> <-. exists df. split; [|done].
  revert Hdf. unfold read_sql_query_tickets, cursor. simpl. done.
Qed.

(** ** The metrics snapshot *)

(** C1. On a store of five tickets, four of them resolved (status Resuelto
    or Cerrado) with resolution hours 10, 20, 30, 50 and satisfactions
    5, 4, 3, 2, and one open ticket without either, [calculate_metrics]
    returns total 5, resolved 4, open 1, resolution rate 80.0, mean
    resolution time 27.5, mean satisfaction 3.5 and a 24h SLA rate of
    50.0. *)
Theorem calculate_metrics_scenario self db t (t1 t2 t3 t4 t5 : Ticket) :
  conn self = Some db → tickets db = Some t →
  snd <$> rows t = [t1; t2; t3; t4; t5] →
  resuelto t1 → resuelto t2 → resuelto t3 → resuelto t4 → ¬ resuelto t5 →
  tiempo_resolucion_horas <$> [t1; t2; t3; t4; t5]
    = [Some 10%Q; Some 20%Q; Some 30%Q; Some 50%Q; None] →
  satisfaccion_cliente <$> [t1; t2; t3; t4; t5]
    = [Some 5; Some 4; Some 3; Some 2; None] →
  ∃ m self',
    calculate_metrics self = Ok (m, self')
    ∧ total_tickets m = 5
    ∧ tickets_resueltos m = 4
    ∧ tickets_abiertos m = 1
    ∧ tasa_resolucion m = PFloat 80
    ∧ tiempo_promedio_resolucion_horas m = PFloat (55 # 2)
    ∧ satisfaccion_promedio m = PFloat (7 # 2)
    ∧ sla_24h m = PFloat 50.
Proof.
  intros Hc Ht Hrows R1 R2 R3 R4 R5 Hh Hs.
  destruct (metrics_of_frame_Ok [t1; t2; t3; t4; t5]) as [m Hm].
  exists m. eexists. split.
  { apply (calculate_metrics_connected _ db t); [done..|]. by rewrite Hrows. }
  revert Hm. unfold metrics_of_frame.
  rewrite !filter_cons_True by done.
  rewrite filter_cons_False by done.
  injection Hh as Hh1 Hh2 Hh3 Hh4 Hh5. injection Hs as Hs1 Hs2 Hs3 Hs4 Hs5.
  cbn [omap list_omap]. 
  rewrite Hh1, Hh2, Hh3, Hh4, Hh5, Hs1, Hs2, Hs3, Hs4, Hs5.
  intros [= <-]. cbn [total_tickets tickets_resueltos tickets_abiertos
    tasa_resolucion tiempo_promedio_resolucion_horas satisfaccion_promedio
    sla_24h].
  repeat split; vm_compute; reflexivity.
Qed.

Lemma calculate_metrics_scenario_witness :
  ∃ m self',
    calculate_metrics (analyzer_on scenario_tickets) = Ok (m, self')
    ∧ total_tickets m = 5
    ∧ tickets_resueltos m = 4
    ∧ tickets_abiertos m = 1
    ∧ tasa_resolucion m = PFloat 80
    ∧ tiempo_promedio_resolucion_horas m = PFloat (55 # 2)
    ∧ satisfaccion_promedio m = PFloat (7 # 2)
    ∧ sla_24h m = PFloat 50.
Proof.
  eapply (calculate_metrics_scenario (analyzer_on scenario_tickets)
            (database_of scenario_tickets) (table_of scenario_tickets));
    try reflexivity; compute_done.
Defined.

(** C2. On an empty store [calculate_metrics] raises nothing, in
    particular no division error, and returns the snapshot with total 0,
    the four rates and means equal to 0, and empty grouped counts for
    category, priority and channel. *)
Theorem calculate_metrics_empty self db t :
  conn self = Some db → tickets db = Some t → rows t = [] →
  ∃ self',
    calculate_metrics self =
      Ok ({| total_tickets := 0;
             tickets_resueltos := 0;
             tickets_abiertos := 0;
             tasa_resolucion := PInt 0;
             tiempo_promedio_resolucion_horas := PInt 0;
             satisfaccion_promedio := PInt 0;
             sla_24h := PInt 0;
             tickets_por_categoria := ∅;
             tickets_por_prioridad := ∅;
             tickets_por_canal := ∅ |}, self').
Proof.
  intros Hc Ht Hrows. eexists.
  apply (calculate_metrics_connected _ db t); [done..|].
  rewrite Hrows. reflexivity.
Qed.

Lemma calculate_metrics_empty_witness :
  ∃ self',
    calculate_metrics (analyzer_on []) =
      Ok ({| total_tickets := 0;
             tickets_resueltos := 0;
             tickets_abiertos := 0;
             tasa_resolucion := PInt 0;
             tiempo_promedio_resolucion_horas := PInt 0;
             satisfaccion_promedio := PInt 0;
             sla_24h := PInt 0;
             tickets_por_categoria := ∅;
             tickets_por_prioridad := ∅;
             tickets_por_canal := ∅ |}, self').
Proof.
  apply (calculate_metrics_empty (analyzer_on []) (database_of [])
           (table_of []));
    reflexivity.
Defined.

(** C10. In every snapshot the total is the sum of the resolved and the
    open count, where resolved counts exactly the tickets whose status is
    Resuelto or Cerrado and open counts all the others; a ticket with
    status En Progreso is among the open ones. *)
Theorem calculate_metrics_counts self db t :
  conn self = Some db → tickets db = Some t →
  ∃ m self',
    calculate_metrics self = Ok (m, self')
    ∧ total_tickets m = len (rows t)
    ∧ total_tickets m = tickets_resueltos m + tickets_abiertos m
    ∧ tickets_resueltos m = len (filter (λ r, resuelto r.2) (rows t))
    ∧ tickets_abiertos m = len (filter (λ r, ¬ resuelto r.2) (rows t))
    ∧ ∀ r, r ∈ rows t → estado r.2 = "En Progreso" →
        r ∈ filter (λ r, ¬ resuelto r.2) (rows t).
Proof.
  intros Hc Ht.
  destruct (metrics_of_frame_Ok (snd <$> rows t)) as [m Hm].
  exists m. eexists. split; [by apply (calculate_metrics_connected _ db t)|].
  revert Hm. unfold metrics_of_frame. intros Hm.
  apply bind_Ok in Hm as (tasa & _ & Hm).
  apply bind_Ok in Hm as (sla & _ & Hm).
  injection Hm as <-. cbn [total_tickets tickets_resueltos tickets_abiertos].
  assert (Hlen : ∀ l : list (Z * Ticket),
    len (filter resuelto (snd <$> l)) = len (filter (λ r, resuelto r.2) l)
    ∧ len l = len (filter (λ r, resuelto r.2) l)
              + len (filter (λ r, ¬ resuelto r.2) l)).
  { unfold len. induction l as [|r l [IH1 IH2]]; [done|].
    rewrite fmap_cons. destruct (decide (resuelto r.2)) as [Hr|Hr].
    - rewrite !filter_cons_True by done.
      rewrite (filter_cons_False (λ r, ¬ resuelto r.2)) by tauto.
      simpl length. lia.
    - rewrite !filter_cons_False by done.
      rewrite (filter_cons_True (λ r, ¬ resuelto r.2)) by done.
      simpl length. lia. }
  destruct (Hlen (rows t)) as [H1 H2].
  replace (len (snd <$> rows t)) with (len (rows t))
    by (unfold len; by rewrite length_fmap).
  rewrite H1. repeat split; [lia | lia |].
  intros r Hr Hest. apply list_elem_of_filter. split; [|done].
  unfold resuelto. rewrite Hest. compute_done.
Qed.

Lemma calculate_metrics_counts_witness :
  ∃ m self',
    calculate_metrics (analyzer_on scenario_tickets) = Ok (m, self')
    ∧ total_tickets m = 5
    ∧ total_tickets m = tickets_resueltos m + tickets_abiertos m
    ∧ tickets_resueltos m = 4
    ∧ tickets_abiertos m = 1.
Proof.
  destruct (calculate_metrics_counts (analyzer_on scenario_tickets)
              (database_of scenario_tickets) (table_of scenario_tickets)
              eq_refl eq_refl)
    as (m & self' & Hrun & Htot & Hsum & Hres & Hopen & _).
  exists m, self'. repeat split; [exact Hrun | exact Htot | exact Hsum | exact Hres | exact Hopen].
Defined.

(** ** Rates *)

Lemma round_half_even_between (q : Q) (lo hi : Z) :
  (inject_Z lo <= q)%Q → (q <= inject_Z hi)%Q →
  lo ≤ round_half_even q ≤ hi.
Proof.
  intros Hlo Hhi. unfold round_half_even.
  pose proof (Qfloor_resp_le _ _ Hlo) as Hf1. rewrite Qfloor_Z in Hf1.
  pose proof (Qfloor_resp_le _ _ Hhi) as Hf2. rewrite Qfloor_Z in Hf2.
  destruct (decide (Qfloor q = hi)) as [Heq|Hne].
  - assert (q - inject_Z (Qfloor q) == 0)%Q as Hzero.
    { rewrite Heq. apply Qle_antisym.
      - apply (Qplus_le_l _ _ (inject_Z hi)). by ring_simplify.
      - apply (Qplus_le_l _ _ (inject_Z hi)). ring_simplify.
        rewrite <- Heq. apply Qfloor_le. }
    assert ((q - inject_Z (Qfloor q) ?= 1 # 2)%Q = Lt) as ->; [|lia].
    apply Qlt_alt. by rewrite Hzero.
  - destruct (q - inject_Z (Qfloor q) ?= 1 # 2)%Q;
      [destruct (Z.even (Qfloor q))|..]; lia.
Qed.

Lemma round2_percent_bounded (q : Q) :
  (0 <= q)%Q → (q <= 100)%Q → (0 <= round2 q)%Q ∧ (round2 q <= 100)%Q.
Proof.
  intros H0 H100. unfold round2. rewrite !Qred_correct.
  destruct (round_half_even_between (q * 100) 0 10000) as [Hlo Hhi].
  - change (inject_Z 0) with (0 * 100)%Q. by apply Qmult_le_compat_r.
  - change (inject_Z 10000) with (100 * 100)%Q. by apply Qmult_le_compat_r.
  - unfold Qle. simpl. lia.
Qed.

Lemma percent_bounded (x y : Z) :
  0 ≤ x ≤ y → 0 < y →
  (0 <= inject_Z x / inject_Z y * 100)%Q
  ∧ (inject_Z x / inject_Z y * 100 <= 100)%Q.
Proof.
  intros Hx Hy. destruct y as [|p|p]; [lia| |lia].
  unfold Qle, Qdiv, Qmult, Qinv, inject_Z. simpl. split; nia.
Qed.

Lemma len_filter_le {A} (P : A → Prop) `{∀ x, Decision (P x)} (l : list A) :
  0 ≤ len (filter P l) ≤ len l.
Proof. unfold len. pose proof (length_filter P l). lia. Qed.

Lemma py_round2_rate_bounded (x y : Z) (r : pynum) :
  0 ≤ x ≤ y →
  (if 0 <? y then PFloat <$> percent x y else Ok (PInt 0)) = Ok r →
  (0 <= pynum_Q (py_round2 r))%Q ∧ (pynum_Q (py_round2 r) <= 100)%Q.
Proof.
  intros Hx. destruct (Z.ltb_spec 0 y) as [Hy|Hy].
  - rewrite percent_Ok by done. intros [= <-]. simpl.
    apply round2_percent_bounded; by apply percent_bounded.
  - intros [= <-]. simpl. done.
Qed.

(** C4. For every content of the ticket store, the resolution rate and the
    24h SLA rate of the snapshot that [calculate_metrics] returns lie
    between 0 and 100. *)
Theorem calculate_metrics_rates_bounded self db t :
  conn self = Some db → tickets db = Some t →
  ∃ m self',
    calculate_metrics self = Ok (m, self')
    ∧ (0 <= pynum_Q (tasa_resolucion m))%Q
    ∧ (pynum_Q (tasa_resolucion m) <= 100)%Q
    ∧ (0 <= pynum_Q (sla_24h m))%Q
    ∧ (pynum_Q (sla_24h m) <= 100)%Q.
Proof.
  intros Hc Ht.
  destruct (metrics_of_frame_Ok (snd <$> rows t)) as [m Hm].
  exists m. eexists. split; [by apply (calculate_metrics_connected _ db t)|].
  revert Hm. unfold metrics_of_frame. intros Hm.
  apply bind_Ok in Hm as (tasa & Htasa & Hm).
  apply bind_Ok in Hm as (sla & Hsla & Hm).
  injection Hm as <-. cbn [tasa_resolucion sla_24h].
  apply py_round2_rate_bounded in Htasa; [|apply len_filter_le].
  apply py_round2_rate_bounded in Hsla; [|apply len_filter_le].
  tauto.
Qed.

Lemma calculate_metrics_rates_bounded_witness :
  ∃ m self',
    calculate_metrics (analyzer_on scenario_tickets) = Ok (m, self')
    ∧ (0 <= pynum_Q (tasa_resolucion m))%Q
    ∧ (pynum_Q (tasa_resolucion m) <= 100)%Q
    ∧ (0 <= pynum_Q (sla_24h m))%Q
    ∧ (pynum_Q (sla_24h m) <= 100)%Q.
Proof.
  apply (calculate_metrics_rates_bounded (analyzer_on scenario_tickets)
           (database_of scenario_tickets) (table_of scenario_tickets));
    reflexivity.
Defined.

(** C9, as the code has it. [calculate_metrics] takes no ticket collection:
    it reads the rows of the ticket table through the analyzer's
    connection. Its snapshot is a function of those rows alone: two
    analyzers whose stores hold the same rows get equal snapshots. The call
    leaves the connection, the database and [db_path] as they were, stores
    the snapshot in [self.metrics] and logs two lines. *)
Theorem calculate_metrics_function_of_rows self1 self2 df :
  read_sql_query_tickets self1 = Ok df →
  read_sql_query_tickets self2 = Ok df →
  ∃ m self1' self2',
    calculate_metrics self1 = Ok (m, self1')
    ∧ calculate_metrics self2 = Ok (m, self2')
    ∧ metrics_of_frame df = Ok m
    ∧ conn self1' = conn self1
    ∧ db_path self1' = db_path self1
    ∧ metrics self1' = Some m
    ∧ logged self1' = (logged self1 ++ ["Calculando métricas de soporte...";
                                        "Métricas calculadas exitosamente"])%list.
Proof.
  intros H1 H2. destruct (metrics_of_frame_Ok df) as [m Hm].
  assert (Hrun : ∀ self, read_sql_query_tickets self = Ok df →
    calculate_metrics self =
      Ok (m, logger_info "Métricas calculadas exitosamente"
               (set_metrics m
                  (logger_info "Calculando métricas de soporte..." self)))).
  { intros self Hread. unfold calculate_metrics.
    replace (read_sql_query_tickets (logger_info _ self))
      with (read_sql_query_tickets self) by reflexivity.
    rewrite Hread. simpl. by rewrite Hm. }
  exists m. do 2 eexists.
  split; [by apply Hrun|]. split; [by apply Hrun|].
  repeat split; [done|]. simpl. by rewrite <- app_assoc.
Qed.

Lemma calculate_metrics_function_of_rows_witness :
  ∃ m self1' self2',
    calculate_metrics (analyzer_on scenario_tickets) = Ok (m, self1')
    ∧ calculate_metrics
        (logger_info "otro" (analyzer_on scenario_tickets)) = Ok (m, self2')
    ∧ metrics self1' = Some m.
Proof.
  destruct (calculate_metrics_function_of_rows
              (analyzer_on scenario_tickets)
              (logger_info "otro" (analyzer_on scenario_tickets))
              scenario_tickets eq_refl eq_refl)
    as (m & s1 & s2 & Hr1 & Hr2 & _ & _ & _ & Hm & _).
  exists m, s1, s2. exact (conj Hr1 (conj Hr2 Hm)).
Defined.

(** C9 as stated does not hold: the call changes the analyzer (it stores
    the snapshot and logs), and its result comes from the store, not from
    an argument: the same object on another database gives another
    result. *)
Lemma calculate_metrics_not_pure :
  ∃ m self',
    calculate_metrics (analyzer_on scenario_tickets) = Ok (m, self')
    ∧ metrics (analyzer_on scenario_tickets) = None
    ∧ metrics self' = Some m
    ∧ logged self' ≠ logged (analyzer_on scenario_tickets)
    ∧ calculate_metrics (set_conn (database_of [])
                           (analyzer_on scenario_tickets))
      ≠ calculate_metrics (analyzer_on scenario_tickets).
Proof.
  destruct (metrics_of_frame_Ok scenario_tickets) as [m Hm].
  exists m. eexists. split.
  { apply (calculate_metrics_connected _ (database_of scenario_tickets)
             (table_of scenario_tickets)); [done..|exact Hm]. }
  repeat split; [done|].
  intros Heq.
  apply (f_equal (λ r, match r with
                       | Ok (m, _) => total_tickets m
                       | Raise _ => -1
                       end)) in Heq.
  vm_compute in Heq. discriminate.
Qed.

(** ** The store *)

(** C6. On a connected analyzer [create_tables] raises nothing, and a
    second call right after the first raises nothing either and leaves the
    database exactly as the first call left it: both tables exist, and a
    table that existed before the first call is kept as it was. *)
Theorem create_tables_idempotent self db :
  conn self = Some db →
  ∃ self1 self2 db1 t md,
    create_tables self = Ok (tt, self1)
    ∧ create_tables self1 = Ok (tt, self2)
    ∧ conn self1 = Some db1
    ∧ conn self2 = Some db1
    ∧ tickets db1 = Some t
    ∧ metricas_diarias db1 = Some md
    ∧ (∀ t0, tickets db = Some t0 → t = t0)
    ∧ (∀ md0, metricas_diarias db = Some md0 → md = md0).
Proof.
  intros Hc. unfold create_tables, cursor. rewrite Hc. simpl.
  destruct db as [[t0|] [md0|]]; simpl;
    do 5 eexists; (repeat split; [reflexivity..| |]); congruence.
Qed.

Lemma create_tables_idempotent_witness :
  ∃ self1 self2 db1,
    create_tables analyzer_fresh = Ok (tt, self1)
    ∧ create_tables self1 = Ok (tt, self2)
    ∧ conn self1 = Some db1
    ∧ conn self2 = Some db1.
Proof.
  destruct (create_tables_idempotent analyzer_fresh
              {| tickets := None; metricas_diarias := None |} eq_refl)
    as (s1 & s2 & db1 & _ & _ & H1 & H2 & H3 & H4 & _).
  exists s1, s2, db1. exact (conj H1 (conj H2 (conj H3 H4))).
Defined.

(** C5. [INSERT OR IGNORE] of a ticket whose [ticket_id] is already in the
    table raises nothing and leaves the rows of the table, and so the row
    stored under that [ticket_id], as they were. *)
Theorem execute_insert_duplicate (r : Ticket) db t (i : Z) (old : Ticket) :
  tickets db = Some t →
  (i, old) ∈ rows t → ticket_id old = ticket_id r →
  ∃ db' t',
    execute_insert r db = Ok db'
    ∧ tickets db' = Some t'
    ∧ rows t' = rows t
    ∧ (i, old) ∈ rows t'
    ∧ metricas_diarias db' = metricas_diarias db.
Proof.
  intros Ht Hin Hid. unfold execute_insert. rewrite Ht.
  do 2 eexists. split; [reflexivity|]. simpl. split; [reflexivity|].
  unfold insert_or_ignore.
  assert (ticket_id_taken (ticket_id r) t = true) as ->.
  { unfold ticket_id_taken. apply bool_decide_eq_true.
    apply list_elem_of_fmap. exists (i, old). by rewrite <- Hid. }
  done.
Qed.

Lemma execute_insert_duplicate_witness :
  ∃ db' t',
    execute_insert (ticket "TICK-0003" (ymd 2024 3 3) "Abierto" None None)
      (database_of scenario_tickets) = Ok db'
    ∧ tickets db' = Some t'
    ∧ rows t' = rows (table_of scenario_tickets).
Proof.
  destruct (execute_insert_duplicate
              (ticket "TICK-0003" (ymd 2024 3 3) "Abierto" None None)
              (database_of scenario_tickets) (table_of scenario_tickets) 3
              (ticket "TICK-0003" (ymd 2024 1 9) "Resuelto" (Some 30%Q)
                 (Some 3)) eq_refl)
    as (db' & t' & H1 & H2 & H3 & _); [repeat constructor | reflexivity |].
  exists db', t'. exact (conj H1 (conj H2 H3)).
Defined.

(** ** The sample generator *)

Section GeneratorProperties.
Context `{RandomState G}.
Hypothesis choice_from_list : ChoiceFromList.

Lemma sample_ticket_invariant base_date i g r g' :
  sample_ticket base_date i g = Ok (r, g') → ticket_invariant r.
Proof using choice_from_list.
  unfold sample_ticket.
  destruct (rs_randint 0 60 g) as [k g1].
  destruct (datetime_add_us base_date (timedelta_days k))
    as [creacion|]; [simpl|discriminate].
  destruct (rs_exponential 24 g1) as [horas g2].
  destruct (rs_random g2) as [u g3].
  destruct (negb (Qle_bool u (2 # 10))).
  - destruct (datetime_add_us creacion (timedelta_hours horas))
      as [res|]; [simpl|discriminate].
    pose proof (choice_from_list ["Resuelto"; "Cerrado"]
      (Some [7 # 10; 3 # 10]%Q) g3 ltac:(done)) as Hest.
    destruct (rs_choice ["Resuelto"; "Cerrado"] _ g3) as [est g4].
    simpl. destruct (rs_randint 1 6 g4) as [s g5].
    destruct (rs_choice categorias None g5) as [cat g6].
    destruct (rs_choice prioridades _ g6) as [pri g7].
    destruct (rs_choice agentes None g7) as [age g8].
    destruct (rs_choice canales None g8) as [can g9].
    intros [= <- <-]. unfold ticket_invariant, resuelto. simpl.
    repeat split; eauto.
  - pose proof (choice_from_list ["Abierto"; "En Progreso"]
      (Some [3 # 10; 7 # 10]%Q) g3 ltac:(done)) as Hest.
    destruct (rs_choice ["Abierto"; "En Progreso"] _ g3) as [est g4].
    simpl. destruct (rs_choice categorias None g4) as [cat g6].
    destruct (rs_choice prioridades _ g6) as [pri g7].
    destruct (rs_choice agentes None g7) as [age g8].
    destruct (rs_choice canales None g8) as [can g9].
    intros [= <- <-]. unfold ticket_invariant, resuelto. simpl.
    simpl in Hest.
    repeat split; try (by intros [? [=]]).
    intros Hres. exfalso.
    apply elem_of_cons in Hest as [->|Hest];
      [|apply elem_of_cons in Hest as [->|Hest%elem_of_nil]; [|done]];
      (apply elem_of_cons in Hres as [?|Hres]; [done|];
       apply elem_of_cons in Hres as [?|?%elem_of_nil]; done).
Qed.

Lemma execute_insert_rows r db db' t' x :
  execute_insert r db = Ok db' → tickets db' = Some t' → x ∈ rows t' →
  x.2 = r ∨ ∃ t, tickets db = Some t ∧ x ∈ rows t.
Proof.
  unfold execute_insert. destruct (tickets db) as [t|]; [|discriminate].
  intros [= <-]. simpl. intros [= <-]. unfold insert_or_ignore.
  destruct (ticket_id_taken (ticket_id r) t); simpl.
  - eauto.
  - intros [Hx|Hx]%elem_of_app; [eauto|].
    apply list_elem_of_singleton in Hx as ->. by left.
Qed.

Lemma insert_loop_invariant base_date indices g db db' t' x :
  insert_loop base_date indices g db = Ok db' →
  tickets db' = Some t' → x ∈ rows t' →
  ticket_invariant x.2 ∨ ∃ t, tickets db = Some t ∧ x ∈ rows t.
Proof using choice_from_list.
  revert g db. induction indices as [|i indices IH]; intros g db; simpl.
  - intros [= ->] Ht Hx. eauto.
  - intros Hrun Ht Hx.
    apply bind_Ok in Hrun as ([r g1] & Hsample & Hrun).
    apply bind_Ok in Hrun as (db1 & Hins & Hrun).
    destruct (IH _ _ Hrun Ht Hx) as [?|(t1 & Ht1 & Hx1)]; [by left|].
    destruct (execute_insert_rows _ _ _ _ _ Hins Ht1 Hx1) as [->|?];
      [left|by right].
    by eapply sample_ticket_invariant.
Qed.

(** C3. Every ticket the generator builds, for every index and every
    state of the random generator (so for every seed), has its resolution
    date, resolution time and satisfaction present together, and present
    exactly when its status is Resuelto or Cerrado; and after
    [insert_sample_tickets], for every number of tickets, every row of
    the ticket table that was not there before satisfies the same. *)
Theorem generated_tickets_invariant :
  (∀ base_date i g r g',
     sample_ticket base_date i g = Ok (r, g') → ticket_invariant r)
  ∧ (∀ now n self self' db db' t t' x,
       insert_sample_tickets now n self = Ok (tt, self') →
       conn self = Some db → tickets db = Some t →
       conn self' = Some db' → tickets db' = Some t' →
       x ∈ rows t' → x ∈ rows t ∨ ticket_invariant x.2).
Proof using choice_from_list.
  split; [apply sample_ticket_invariant|].
  intros now n self self' db db' t t' x Hrun Hc Ht Hc' Ht' Hx.
  unfold insert_sample_tickets in Hrun.
  apply bind_Ok in Hrun as (db0 & Hcur & Hrun).
  apply bind_Ok in Hrun as (base_date & _ & Hrun).
  apply bind_Ok in Hrun as (db1 & Hloop & Hrun).
  injection Hrun as <-. simpl in Hc'. injection Hc' as <-.
  unfold cursor in Hcur. simpl in Hcur. rewrite Hc in Hcur.
  injection Hcur as <-.
  destruct (insert_loop_invariant _ _ _ _ _ _ _ Hloop Ht' Hx)
    as [?|(t0 & Ht0 & Hx0)]; [by right|].
  left. congruence.
Qed.
End GeneratorProperties.

Lemma lcg_choice_from_list : @ChoiceFromList Z lcg_random.
Proof.
  intros a p s Ha. simpl.
  assert (0 < len a) as Hlen.
  { unfold len. destruct a; [done|]. simpl length. lia. }
  pose proof (Z.mod_pos_bound (lcg_step s) (len a) Hlen) as Hmod.
  destruct (a !! Z.to_nat (lcg_step s `mod` len a)) as [x|] eqn:Hx.
  - simpl. by eapply list_elem_of_lookup_2.
  - apply lookup_ge_None in Hx. unfold len in *. lia.
Qed.

Lemma generated_tickets_invariant_witness :
  @insert_sample_tickets Z lcg_random (noon (ymd 2024 6 1)) 6
    (analyzer_on []) = Ok (tt, sampled_analyzer)
  ∧ ∀ db' t' x, conn sampled_analyzer = Some db' → tickets db' = Some t' →
      x ∈ rows t' → ticket_invariant x.2.
Proof.
  assert (Hrun : @insert_sample_tickets Z lcg_random (noon (ymd 2024 6 1)) 6
                   (analyzer_on []) = Ok (tt, sampled_analyzer))
    by (vm_compute; reflexivity).
  split; [exact Hrun|].
  intros db' t' x Hc Ht Hx.
  destruct (proj2 (generated_tickets_invariant lcg_choice_from_list)
              (noon (ymd 2024 6 1)) 6 (analyzer_on []) sampled_analyzer
              (database_of []) db' (table_of []) t' x Hrun eq_refl eq_refl
              Hc Ht Hx)
    as [Hold|Hinv]; [|exact Hinv].
  exact (False_ind _ (proj1 (elem_of_nil x) Hold)).
Defined.

(** ** The export *)


(** ** The weekly report *)

Section WeeklyProperties.
Variable semana : Ticket → string.

Implicit Types (k : string) (b : bool) (groups : list WeekRow)
  (ts : list Ticket) (x : WeekRow).

Lemma aggregate_elem k b groups x :
  x ∈ aggregate k b groups → week_key x = k ∨ x ∈ groups.
Proof.
  induction groups as [|[[k' c] r] groups IH]; simpl.
  - intros ->%list_elem_of_singleton. by left.
  - destruct (decide (k = k')) as [->|Hne].
    + intros [->|Hx]%elem_of_cons; [by left|]. right. by right.
    + destruct (decide (String.le k' k)).
      * intros [->|Hx]%elem_of_cons; [by left|by right].
      * intros [->|Hx]%elem_of_cons; [right; by left|].
        destruct (IH Hx); [by left|]. right. by right.
Qed.

Lemma aggregate_other k b groups x :
  x ∈ groups → week_key x ≠ k → x ∈ aggregate k b groups.
Proof.
  induction groups as [|[[k' c] r] groups IH]; simpl.
  - by intros ?%elem_of_nil.
  - intros Hx Hne. destruct (decide (k = k')) as [->|Hk].
    + apply elem_of_cons in Hx as [->|Hx]; [done|by right].
    + destruct (decide (String.le k' k)); [by right|].
      apply elem_of_cons in Hx as [->|Hx]; [by left|].
      right. by apply IH.
Qed.

Lemma aggregate_present k b groups :
  ∃ c r, (k, c, r) ∈ aggregate k b groups.
Proof.
  induction groups as [|[[k' c] r] groups (c1 & r1 & IH)]; simpl.
  - do 2 eexists. by left.
  - destruct (decide (k = k')) as [->|Hk]; [do 2 eexists; by left|].
    destruct (decide (String.le k' k)); [do 2 eexists; by left|].
    exists c1, r1. by right.
Qed.

Lemma key_desc_lt_ne x y : key_desc x y → week_key y ≠ week_key x.
Proof. intros [Hle Hnle] Heq. apply Hnle. by rewrite Heq. Qed.

Lemma aggregate_sorted k b groups :
  StronglySorted key_desc groups →
  StronglySorted key_desc (aggregate k b groups).
Proof.
  induction groups as [|[[k' c] r] groups IH]; simpl; intros Hs.
  - repeat constructor.
  - apply StronglySorted_inv in Hs as [Hs Hall].
    destruct (decide (k = k')) as [->|Hk]; [by constructor|].
    destruct (decide (String.le k' k)) as [Hle|Hnle].
    + assert (strict String.le k' k) as Hlt.
      { split; [done|]. intros Hle'. apply Hk. by apply (anti_symm String.le). }
      constructor; [by constructor|]. constructor; [done|].
      eapply Forall_impl; [exact Hall|]. intros y Hy.
      unfold key_desc in *. simpl in *. by etrans.
    + constructor; [by apply IH|].
      apply Forall_forall. intros y Hy.
      destruct (aggregate_elem _ _ _ _ Hy) as [Hyk|Hy'].
      * unfold key_desc. rewrite Hyk. simpl.
        destruct (total String.le k k') as [?|?]; [|done].
        split; [done|]. done.
      * rewrite Forall_forall in Hall. by apply Hall.
Qed.

Lemma aggregate_entry k b groups c r :
  StronglySorted key_desc groups →
  (k, c, r) ∈ aggregate k b groups →
  (∃ c0 r0, (k, c0, r0) ∈ groups ∧ c = c0 + 1 ∧ r = r0 + count_if b)
  ∨ ((∀ x, x ∈ groups → week_key x ≠ k) ∧ c = 1 ∧ r = count_if b).
Proof.
  induction groups as [|[[k' c'] r'] groups IH]; simpl; intros Hs.
  - intros [= -> ->]%list_elem_of_singleton. right.
    split; [|done]. by intros x ?%elem_of_nil.
  - apply StronglySorted_inv in Hs as [Hs Hall].
    rewrite Forall_forall in Hall.
    destruct (decide (k = k')) as [->|Hk].
    + intros [[= -> ->]|Hx]%elem_of_cons.
      * left. exists c', r'. split; [by left|done].
      * apply Hall, key_desc_lt_ne in Hx. done.
    + destruct (decide (String.le k' k)) as [Hle|Hnle].
      * intros [[= -> ->]|Hx]%elem_of_cons.
        -- right. split; [|done].
           intros x [->|Hx]%elem_of_cons; [by intros <-|].
           apply Hall in Hx as [Hx1 Hx2]. simpl in *. intros Hxk.
           rewrite Hxk in Hx2. done.
        -- apply elem_of_cons in Hx as [[= <-]|Hx]; [done|].
           apply Hall in Hx as [Hx1 Hx2]. simpl in *. done.
      * intros [[= <-]|Hx]%elem_of_cons; [done|].
        destruct (IH Hs Hx) as [(c0 & r0 & Hin & ? & ?)|(Hno & ? & ?)].
        -- left. exists c0, r0. split; [by right|done].
        -- right. split; [|done].
           intros x [->|Hx']%elem_of_cons; [by intros <-|by apply Hno].
Qed.

Lemma creados_snoc k ts t :
  creados semana k (ts ++ [t])
  = creados semana k ts + (if decide (semana t = k) then 1 else 0).
Proof.
  unfold creados, len. rewrite filter_app, length_app.
  destruct (decide (semana t = k)).
  - rewrite filter_cons_True by done. simpl. lia.
  - rewrite filter_cons_False by done. simpl. lia.
Qed.

Lemma resueltos_en_snoc k ts t :
  resueltos_en semana k (ts ++ [t])
  = resueltos_en semana k ts
    + (if decide (semana t = k) then count_if (bool_decide (resuelto t))
       else 0).
Proof.
  unfold resueltos_en, len. rewrite filter_app, length_app.
  destruct (decide (semana t = k)).
  - destruct (decide (resuelto t)) as [Hr|Hr].
    + rewrite filter_cons_True by done.
      rewrite bool_decide_eq_true_2 by done. simpl. lia.
    + rewrite filter_cons_False by tauto.
      rewrite bool_decide_eq_false_2 by done. simpl. lia.
  - rewrite filter_cons_False by tauto. simpl. lia.
Qed.

Lemma counts_absent k ts :
  (∀ t, t ∈ ts → semana t ≠ k) →
  creados semana k ts = 0 ∧ resueltos_en semana k ts = 0.
Proof.
  intros Hno. unfold creados, resueltos_en, len.
  induction ts as [|t ts IH]; [done|].
  assert (semana t ≠ k) by (apply Hno; by left).
  rewrite !filter_cons_False by tauto.
  apply IH. intros t' Ht'. apply Hno. by right.
Qed.

Lemma groups_of_step ts groups t :
  groups_of semana ts groups →
  groups_of semana (ts ++ [t])
    (aggregate (semana t) (bool_decide (resuelto t)) groups).
Proof.
  intros (Hs & Hcount & Hall). split; [by apply aggregate_sorted|]. split.
  - intros k c r Hx. rewrite creados_snoc, resueltos_en_snoc.
    destruct (decide (semana t = k)) as [<-|Hne].
    + destruct (aggregate_entry _ _ _ _ _ Hs Hx)
        as [(c0 & r0 & Hin & Hc & Hr)|(Hno & Hc & Hr)]; subst c r.
      * destruct (Hcount _ _ _ Hin) as (? & Hc & Hr). rewrite <- Hc, <- Hr.
        repeat split; lia.
      * destruct (counts_absent (semana t) ts) as [-> ->]; [|done].
        intros t' Ht' Heq. destruct (Hall _ Ht') as (c & r & Hin).
        apply (Hno _ Hin). done.
    + destruct (aggregate_elem _ _ _ _ Hx) as [Hk|Hin]; [by symmetry in Hk|].
      destruct (Hcount _ _ _ Hin) as (? & Hc & Hr). rewrite <- Hc, <- Hr.
      repeat split; lia.
  - intros t' Ht'. destruct (decide (semana t' = semana t)) as [->|Hne].
    + apply aggregate_present.
    + apply elem_of_app in Ht' as [Ht' | ->%list_elem_of_singleton]; [|done].
      destruct (Hall _ Ht') as (c & r & Hin). exists c, r.
      by apply aggregate_other.
Qed.

Lemma groups_of_foldl ts0 groups ts :
  groups_of semana ts0 groups →
  groups_of semana (ts0 ++ ts)
    (foldl (λ groups t,
              aggregate (semana t) (bool_decide (resuelto t)) groups)
       groups ts).
Proof.
  revert ts0 groups. induction ts as [|t ts IH]; intros ts0 groups Hg.
  - by rewrite app_nil_r.
  - simpl. rewrite (cons_middle t ts0 ts), app_assoc.
    apply IH. by apply groups_of_step.
Qed.

Lemma group_by_semana_spec ts : groups_of semana ts (group_by_semana semana ts).
Proof.
  apply (groups_of_foldl [] [] ts). split; [constructor|].
  split; [by intros k c r ?%elem_of_nil | by intros t ?%elem_of_nil].
Qed.

(** The report is the head of the grouping: at most eight rows, in
    strictly descending order of their key, each with the counts of its
    week, and a week that is left out is older than every week kept. *)
Lemma weekly_trend_spec ts :
  (length (weekly_trend semana ts) ≤ 8)%nat
  ∧ StronglySorted key_desc (weekly_trend semana ts)
  ∧ (∀ k c r, (k, c, r) ∈ weekly_trend semana ts →
       0 < c ∧ c = creados semana k ts ∧ r = resueltos_en semana k ts)
  ∧ (∀ t, t ∈ ts →
       (∃ c r, (semana t, c, r) ∈ weekly_trend semana ts)
       ∨ (length (weekly_trend semana ts) = 8%nat
          ∧ ∀ x, x ∈ weekly_trend semana ts →
              strict String.le (semana t) (week_key x))).
Proof.
  destruct (group_by_semana_spec ts) as (Hs & Hcount & Hall).
  unfold weekly_trend. generalize dependent (group_by_semana semana ts).
  intros groups Hs Hcount Hall.
  rewrite <- (take_drop 8 groups) in Hs.
  split; [rewrite length_take; apply Nat.le_min_l|].
  split; [by apply StronglySorted_app_1_l in Hs|].
  split.
  - intros k c r Hx. apply Hcount. rewrite <- (take_drop 8 groups).
    apply elem_of_app. by left.
  - intros t Ht. destruct (Hall _ Ht) as (c & r & Hin).
    rewrite <- (take_drop 8 groups) in Hin.
    apply elem_of_app in Hin as [Hin|Hin]; [left; eauto|]. right. split.
    + rewrite length_take. apply list_elem_of_lookup_1 in Hin as [i Hi].
      apply lookup_lt_Some in Hi. rewrite length_drop in Hi.
      apply Nat.min_l. unfold WeekRow in *. lia.
    + intros x Hx.
      apply (StronglySorted_app_1_elem_of _ _ _ _ _ Hs Hx Hin).
Qed.
End WeeklyProperties.

(** C8, as the code has it. On a connected analyzer with a ticket table,
    the weekly part of [generate_sql_report] groups the tickets by the key
    [strftime('%Y-%W', fecha_creacion)], the calendar year and the week of
    that year counted from its first Monday (00 to 53), which is not the
    ISO 8601 week. It returns at most 8 rows in strictly descending order
    of that key; each row holds the number of tickets created in its week,
    at least one, and the number of those that are resolved; and the week
    of a ticket that has no row is older than every week that has one, in
    which case there are exactly 8 rows. *)
Theorem tendencia_semanal_spec self db t :
  conn self = Some db → tickets db = Some t →
  ∃ out,
    tendencia_semanal self = Ok out
    ∧ (length out ≤ 8)%nat
    ∧ StronglySorted key_desc out
    ∧ (∀ k c r, (k, c, r) ∈ out →
         0 < c
         ∧ c = creados (strftime_YW ∘ fecha_creacion) k (snd <$> rows t)
         ∧ r = resueltos_en (strftime_YW ∘ fecha_creacion) k
                 (snd <$> rows t))
    ∧ (∀ x, x ∈ rows t →
         (∃ c r, (strftime_YW (fecha_creacion x.2), c, r) ∈ out)
         ∨ (length out = 8%nat
            ∧ ∀ y, y ∈ out →
                strict String.le (strftime_YW (fecha_creacion x.2))
                  (week_key y))).
Proof.
  intros Hc Ht. eexists. split.
  { unfold tendencia_semanal.
    by rewrite (read_sql_query_tickets_connected _ db t). }
  destruct (weekly_trend_spec (strftime_YW ∘ fecha_creacion)
              (snd <$> rows t)) as (Hlen & Hs & Hcount & Hrecent).
  split; [exact Hlen|]. split; [exact Hs|]. split.
  - intros k c r Hin. by apply Hcount.
  - intros x Hx. apply (Hrecent x.2). apply list_elem_of_fmap. by exists x.
Qed.

Lemma tendencia_semanal_spec_witness :
  ∃ out,
    tendencia_semanal (analyzer_on scenario_tickets) = Ok out
    ∧ (length out ≤ 8)%nat
    ∧ StronglySorted key_desc out.
Proof.
  destruct (tendencia_semanal_spec (analyzer_on scenario_tickets)
              (database_of scenario_tickets) (table_of scenario_tickets)
              eq_refl eq_refl) as (out & Hrun & Hlen & Hs & _).
  exists out. exact (conj Hrun (conj Hlen Hs)).
Defined.

(** C8 as stated does not hold: 31 December 2020 and 1 January 2021 lie in
    one ISO week, 2020-W53, and the report counts them in two weeks. *)
Lemma tendencia_semanal_not_iso_weeks :
  tendencia_semanal (analyzer_on new_year_tickets)
    = Ok [("2021-00", 1, 1); ("2020-52", 1, 1)]
  ∧ iso_week_key (ymd 2020 12 31) = "2020-53"
  ∧ iso_week_key (ymd 2021 1 1) = "2020-53"
  ∧ weekly_trend (iso_week_key ∘ fecha_creacion) new_year_tickets
    = [("2020-53", 2, 2)].
Proof. repeat split; vm_compute; reflexivity. Qed.

(** ** More on the store *)

Lemma max_rowid_bound {R} (rs : list (Z * R)) x :
  x ∈ rs → x.1 ≤ max_rowid rs.
Proof.
  induction rs as [|y rs IH]; [by intros ?%elem_of_nil|].
  intros [->|Hx]%elem_of_cons; simpl; [lia|].
  specialize (IH Hx). lia.
Qed.

Lemma max_rowid_nonneg {R} (rs : list (Z * R)) : 0 ≤ max_rowid rs.
Proof. induction rs as [|y rs IH]; simpl; lia. Qed.

Lemma ticket_id_taken_spec tid t :
  ticket_id_taken tid t = true ↔ tid ∈ (ticket_id ∘ snd) <$> rows t.
Proof. unfold ticket_id_taken. apply bool_decide_eq_true. Qed.

Lemma execute_insert_inv r db db' :
  execute_insert r db = Ok db' →
  ∃ t, tickets db = Some t
       ∧ tickets db' = Some (insert_or_ignore r t)
       ∧ metricas_diarias db' = metricas_diarias db.
Proof.
  unfold execute_insert. destruct (tickets db) as [t|]; [|discriminate].
  intros [= <-]. eauto.
Qed.

(** A ticket with a new [ticket_id] is stored as the last row, under an
    [id] above every [id] in the table and above every [id] handed out
    before; the rows that were there stay as they are. *)
Theorem execute_insert_fresh (r : Ticket) db t :
  tickets db = Some t →
  ticket_id r ∉ (ticket_id ∘ snd) <$> rows t →
  ∃ db' t' v,
    execute_insert r db = Ok db'
    ∧ tickets db' = Some t'
    ∧ rows t' = (rows t ++ [(v, r)])%list
    ∧ sequence t' = v
    ∧ sequence t < v
    ∧ (∀ x, x ∈ rows t → x.1 < v).
Proof.
  intros Ht Hfresh. unfold execute_insert. rewrite Ht.
  do 3 eexists. split; [reflexivity|]. simpl. split; [reflexivity|].
  unfold insert_or_ignore.
  destruct (ticket_id_taken (ticket_id r) t) eqn:Htaken.
  { by apply ticket_id_taken_spec in Htaken. }
  simpl. repeat split; [lia|].
  intros x Hx. apply max_rowid_bound in Hx. lia.
Qed.

Lemma execute_insert_fresh_witness :
  ∃ db' t' v,
    execute_insert (ticket "TICK-0006" (ymd 2024 3 3) "Abierto" None None)
      (database_of scenario_tickets) = Ok db'
    ∧ tickets db' = Some t'
    ∧ rows t'
      = (rows (table_of scenario_tickets)
         ++ [(v, ticket "TICK-0006" (ymd 2024 3 3) "Abierto" None None)])%list
    ∧ sequence t' = v
    ∧ sequence (table_of scenario_tickets) < v.
Proof.
  destruct (execute_insert_fresh
              (ticket "TICK-0006" (ymd 2024 3 3) "Abierto" None None)
              (database_of scenario_tickets) (table_of scenario_tickets)
              eq_refl)
    as (db' & t' & v & H1 & H2 & H3 & H4 & H5 & _).
  - apply (bool_decide_unpack _). vm_compute. exact I.
  - exists db', t', v. exact (conj H1 (conj H2 (conj H3 (conj H4 H5)))).
Defined.

Lemma insert_or_ignore_ok r t : table_ok t → table_ok (insert_or_ignore r t).
Proof.
  intros (Hids & Hrow & Hseq). unfold insert_or_ignore.
  pose proof (max_rowid_nonneg (rows t)).
  destruct (ticket_id_taken (ticket_id r) t) eqn:Htaken; unfold table_ok; simpl.
  - repeat split; [done..|].
    eapply Forall_impl; [exact Hseq|]. simpl. intros x ?. lia.
  - assert (ticket_id r ∉ (ticket_id ∘ snd) <$> rows t) as Hfresh.
    { intros Hin%ticket_id_taken_spec. congruence. }
    rewrite !fmap_app. simpl. repeat split.
    + apply NoDup_app. split; [done|]. split; [|apply NoDup_singleton].
      intros tid Htid ->%list_elem_of_singleton. done.
    + apply NoDup_app. split; [done|]. split; [|apply NoDup_singleton].
      intros i Hi ->%list_elem_of_singleton.
      apply list_elem_of_fmap in Hi as (x & Hxi & Hx).
      apply max_rowid_bound in Hx. lia.
    + apply Forall_app. split.
      * eapply Forall_impl; [exact Hseq|]. simpl. intros x ?. lia.
      * apply Forall_singleton. simpl. lia.
Qed.

(** [INSERT OR IGNORE] keeps the constraints of the table: after it no
    two rows share a [ticket_id] or an [id]. *)
Lemma execute_insert_keeps_constraints (r : Ticket) db db' t t' :
  execute_insert r db = Ok db' →
  tickets db = Some t → tickets db' = Some t' →
  table_ok t → table_ok t'.
Proof.
  intros (t0 & Ht0 & Ht1 & _)%execute_insert_inv Ht Ht' Hok.
  assert (t0 = t) as -> by congruence.
  assert (t' = insert_or_ignore r t) as -> by congruence.
  by apply insert_or_ignore_ok.
Qed.

Lemma elem_of_range (n i : Z) : i ∈ range n ↔ 0 ≤ i < n.
Proof.
  unfold range. rewrite list_elem_of_fmap. split.
  - intros (k & -> & Hk%elem_of_seq). lia.
  - intros Hi. exists (Z.to_nat i). split; [lia|]. apply elem_of_seq. lia.
Qed.

Lemma length_range (n : Z) : length (range n) = Z.to_nat n.
Proof. unfold range. by rewrite length_fmap, length_seq. Qed.

Section GeneratorStore.
Context `{RandomState G}.

Lemma sample_ticket_id base_date i g r g' :
  sample_ticket base_date i g = Ok (r, g') → ticket_id r = tick_id i.
Proof.
  unfold sample_ticket.
  destruct (rs_randint 0 60 g) as [k g1].
  destruct (datetime_add_us base_date (timedelta_days k))
    as [creacion|]; [simpl|discriminate].
  destruct (rs_exponential 24 g1) as [horas g2].
  destruct (rs_random g2) as [u g3].
  destruct (negb (Qle_bool u (2 # 10))).
  - destruct (datetime_add_us creacion (timedelta_hours horas))
      as [res|]; [simpl|discriminate].
    destruct (rs_choice ["Resuelto"; "Cerrado"] _ g3) as [est g4].
    simpl. destruct (rs_randint 1 6 g4) as [s g5].
    destruct (rs_choice categorias None g5) as [cat g6].
    destruct (rs_choice prioridades _ g6) as [pri g7].
    destruct (rs_choice agentes None g7) as [age g8].
    destruct (rs_choice canales None g8) as [can g9].
    by intros [= <- <-].
  - destruct (rs_choice ["Abierto"; "En Progreso"] _ g3) as [est g4].
    simpl. destruct (rs_choice categorias None g4) as [cat g6].
    destruct (rs_choice prioridades _ g6) as [pri g7].
    destruct (rs_choice agentes None g7) as [age g8].
    destruct (rs_choice canales None g8) as [can g9].
    by intros [= <- <-].
Qed.

Lemma insert_or_ignore_rows r t :
  (rows (insert_or_ignore r t) = rows t
   ∧ ticket_id r ∈ (ticket_id ∘ snd) <$> rows t)
  ∨ (∃ v, rows (insert_or_ignore r t) = (rows t ++ [(v, r)])%list
          ∧ ticket_id r ∉ (ticket_id ∘ snd) <$> rows t).
Proof.
  unfold insert_or_ignore.
  destruct (ticket_id_taken (ticket_id r) t) eqn:Htaken; simpl.
  - left. split; [done|]. by apply ticket_id_taken_spec.
  - right. eexists. split; [done|].
    intros Hin%ticket_id_taken_spec. congruence.
Qed.

(** What the loop of [insert_sample_tickets] does to the table. *)
Lemma insert_loop_rows base_date indices g db db' t :
  insert_loop base_date indices g db = Ok db' →
  tickets db = Some t →
  ∃ t' new,
    tickets db' = Some t'
    ∧ metricas_diarias db' = metricas_diarias db
    ∧ rows t' = (rows t ++ new)%list
    ∧ (length new ≤ length indices)%nat
    ∧ (∀ x, x ∈ new → ∃ i, i ∈ indices ∧ ticket_id x.2 = tick_id i)
    ∧ (∀ i, i ∈ indices → tick_id i ∈ (ticket_id ∘ snd) <$> rows t')
    ∧ (table_ok t → table_ok t').
Proof.
  revert g db t. induction indices as [|i indices IH]; intros g db t; simpl.
  - intros [= <-] Ht. exists t, []. rewrite app_nil_r.
    split; [done|]. split; [done|]. split; [done|]. split; [simpl; lia|].
    split; [by intros x ?%elem_of_nil|].
    split; [by intros j ?%elem_of_nil|done].
  - intros Hrun Ht.
    apply bind_Ok in Hrun as ([r g1] & Hsample & Hrun).
    apply bind_Ok in Hrun as (db1 & Hins & Hrun).
    apply sample_ticket_id in Hsample.
    apply execute_insert_inv in Hins as (t0 & Ht0 & Ht1 & Hmd1).
    assert (t0 = t) as -> by congruence.
    destruct (IH _ _ _ Hrun Ht1)
      as (t' & new & Ht' & Hmd & Hrows & Hlen & Hnew & Hall & Hok).
    assert (∀ tid, tid ∈ (ticket_id ∘ snd) <$> rows (insert_or_ignore r t) →
                   tid ∈ (ticket_id ∘ snd) <$> rows t') as Hmono.
    { intros tid. rewrite Hrows, fmap_app, elem_of_app. by left. }
    destruct (insert_or_ignore_rows r t) as [[Hsame Hin]|(v & Hadd & Hfresh)].
    + exists t', new.
      split; [done|]. split; [congruence|].
      split; [by rewrite Hrows, Hsame|].
      split; [simpl; lia|]. split.
      { intros x Hx. destruct (Hnew x Hx) as (j & ? & ?). exists j.
        split; [by right|done]. }
      split.
      { intros j [->|Hj]%elem_of_cons; [|by apply Hall].
        rewrite <- Hsample. apply Hmono. by rewrite Hsame. }
      intros Hokt. by apply Hok, insert_or_ignore_ok.
    + exists t', ((v, r) :: new).
      split; [done|]. split; [congruence|].
      split; [by rewrite Hrows, Hadd, <- app_assoc|].
      split; [simpl; lia|]. split.
      { intros x [->|Hx]%elem_of_cons.
        - exists i. split; [by left|done].
        - destruct (Hnew x Hx) as (j & ? & ?). exists j.
          split; [by right|done]. }
      split.
      { intros j [->|Hj]%elem_of_cons; [|by apply Hall].
        rewrite <- Hsample. apply Hmono. rewrite Hadd, fmap_app.
        apply elem_of_app. right. by left. }
      intros Hokt. by apply Hok, insert_or_ignore_ok.
Qed.

Lemma insert_loop_all_taken base_date indices g db db' t :
  insert_loop base_date indices g db = Ok db' →
  tickets db = Some t →
  (∀ i, i ∈ indices → tick_id i ∈ (ticket_id ∘ snd) <$> rows t) →
  ∃ t', tickets db' = Some t' ∧ rows t' = rows t.
Proof.
  revert g db t. induction indices as [|i indices IH]; intros g db t; simpl.
  - intros [= <-] Ht _. by exists t.
  - intros Hrun Ht Hall.
    apply bind_Ok in Hrun as ([r g1] & Hsample & Hrun).
    apply bind_Ok in Hrun as (db1 & Hins & Hrun).
    apply sample_ticket_id in Hsample.
    apply execute_insert_inv in Hins as (t0 & Ht0 & Ht1 & _).
    assert (t0 = t) as -> by congruence.
    destruct (insert_or_ignore_rows r t) as [[Hsame _]|(v & _ & Hfresh)].
    + destruct (IH _ _ _ Hrun Ht1) as (t' & Ht' & Hrows).
      { intros j Hj. rewrite Hsame. apply Hall. by right. }
      exists t'. split; [done|]. congruence.
    + exfalso. apply Hfresh. rewrite Hsample. apply Hall. by left.
Qed.

Lemma insert_sample_tickets_inv now n self self' :
  insert_sample_tickets now n self = Ok (tt, self') →
  ∃ base_date db db',
    conn self = Some db
    ∧ insert_loop base_date (range n) (rs_seed 42) db = Ok db'
    ∧ conn self' = Some db'
    ∧ metrics self' = metrics self
    ∧ db_path self' = db_path self.
Proof.
  unfold insert_sample_tickets. intros Hrun.
  apply bind_Ok in Hrun as (db & Hcur & Hrun).
  apply bind_Ok in Hrun as (base_date & _ & Hrun).
  apply bind_Ok in Hrun as (db' & Hloop & Hrun).
  injection Hrun as <-. exists base_date, db, db'.
  unfold cursor in Hcur. simpl in Hcur.
  destruct (conn self) as [db0|]; [|discriminate].
  injection Hcur as ->. done.
Qed.

(** [insert_sample_tickets] only appends: the rows that were in the table
    stay, in their order, in front of at most [n_tickets] new rows; every
    new row carries the [ticket_id] of an index below [n_tickets], and
    afterwards every such [ticket_id] is in the table. The rollup table is
    not touched. *)
Theorem insert_sample_tickets_appends now n self self' db t :
  insert_sample_tickets now n self = Ok (tt, self') →
  conn self = Some db → tickets db = Some t →
  ∃ db' t' new,
    conn self' = Some db'
    ∧ tickets db' = Some t'
    ∧ metricas_diarias db' = metricas_diarias db
    ∧ rows t' = (rows t ++ new)%list
    ∧ (length new ≤ Z.to_nat n)%nat
    ∧ (∀ x, x ∈ new → ∃ i, 0 ≤ i < n ∧ ticket_id x.2 = tick_id i)
    ∧ (∀ i, 0 ≤ i < n → tick_id i ∈ (ticket_id ∘ snd) <$> rows t').
Proof.
  intros (base_date & db0 & db' & Hc0 & Hloop & Hc' & _)%insert_sample_tickets_inv
    Hc Ht.
  assert (db0 = db) as -> by congruence.
  destruct (insert_loop_rows _ _ _ _ _ _ Hloop Ht)
    as (t' & new & Ht' & Hmd & Hrows & Hlen & Hnew & Hall & _).
  exists db', t', new. rewrite length_range in Hlen.
  split; [done|]. split; [done|]. split; [done|]. split; [done|].
  split; [done|]. split.
  - intros x Hx. destruct (Hnew x Hx) as (i & Hi%elem_of_range & ?). eauto.
  - intros i Hi. by apply Hall, elem_of_range.
Qed.

(** [insert_sample_tickets] keeps the constraints of the ticket table: if
    no two rows shared a [ticket_id] or an [id] before, none do after. *)
Theorem insert_sample_tickets_keeps_constraints now n self self' db t :
  insert_sample_tickets now n self = Ok (tt, self') →
  conn self = Some db → tickets db = Some t → table_ok t →
  ∃ db' t', conn self' = Some db' ∧ tickets db' = Some t' ∧ table_ok t'.
Proof.
  intros (base_date & db0 & db' & Hc0 & Hloop & Hc' & _)%insert_sample_tickets_inv
    Hc Ht Hok.
  assert (db0 = db) as -> by congruence.
  destruct (insert_loop_rows _ _ _ _ _ _ Hloop Ht)
    as (t' & new & Ht' & _ & _ & _ & _ & _ & Hok').
  exists db', t'. auto.
Qed.

(** Generating again stores nothing: a second [insert_sample_tickets], for
    the same or a smaller number of tickets, leaves the rows of the table
    as the first one left them, at whatever time it runs. *)
Theorem insert_sample_tickets_again now1 now2 n1 n2 self self1 self2 db t :
  insert_sample_tickets now1 n1 self = Ok (tt, self1) →
  insert_sample_tickets now2 n2 self1 = Ok (tt, self2) →
  n2 ≤ n1 →
  conn self = Some db → tickets db = Some t →
  ∃ db1 t1 db2 t2,
    conn self1 = Some db1 ∧ tickets db1 = Some t1
    ∧ conn self2 = Some db2 ∧ tickets db2 = Some t2
    ∧ rows t2 = rows t1.
Proof.
  intros (base1 & db0 & db1 & Hc0 & Hloop1 & Hc1 & _)%insert_sample_tickets_inv
    (base2 & db1' & db2 & Hc1' & Hloop2 & Hc2 & _)%insert_sample_tickets_inv
    Hn Hc Ht.
  assert (db0 = db) as -> by congruence.
  assert (db1' = db1) as -> by congruence.
  destruct (insert_loop_rows _ _ _ _ _ _ Hloop1 Ht)
    as (t1 & new & Ht1 & _ & _ & _ & _ & Hall & _).
  destruct (insert_loop_all_taken _ _ _ _ _ _ Hloop2 Ht1)
    as (t2 & Ht2 & Hrows).
  { intros i Hi%elem_of_range. apply Hall, elem_of_range. lia. }
  exists db1, t1, db2, t2. done.
Qed.

(** New rows of the loop inherit what holds for every sampled ticket. *)
Lemma insert_loop_new_rows (P : Ticket → Prop) base_date indices g db db' t t' x :
  (∀ i g r g', sample_ticket base_date i g = Ok (r, g') → P r) →
  insert_loop base_date indices g db = Ok db' →
  tickets db = Some t → tickets db' = Some t' →
  x ∈ rows t' → x ∈ rows t ∨ P x.2.
Proof.
  intros HP. revert g db t.
  induction indices as [|i indices IH]; intros g db t; simpl.
  - intros [= <-] Ht Ht' Hx. left. congruence.
  - intros Hrun Ht Ht' Hx.
    apply bind_Ok in Hrun as ([r g1] & Hsample & Hrun).
    apply bind_Ok in Hrun as (db1 & Hins & Hrun).
    apply execute_insert_inv in Hins as (t0 & Ht0 & Ht1 & _).
    assert (t0 = t) as -> by congruence.
    destruct (IH _ _ _ Hrun Ht1 Ht' Hx) as [Hx1|?]; [|by right].
    destruct (insert_or_ignore_rows r t) as [[Hsame _]|(v & Hadd & _)].
    + left. by rewrite <- Hsame.
    + rewrite Hadd in Hx1.
      apply elem_of_app in Hx1 as [?| ->%list_elem_of_singleton]; [by left|].
      right. by eapply HP.
Qed.

Lemma insert_sample_tickets_new_rows (P : Ticket → Prop)
    now n self self' db db' t t' x :
  (∀ base_date i g r g', sample_ticket base_date i g = Ok (r, g') → P r) →
  insert_sample_tickets now n self = Ok (tt, self') →
  conn self = Some db → tickets db = Some t →
  conn self' = Some db' → tickets db' = Some t' →
  x ∈ rows t' → x ∈ rows t ∨ P x.2.
Proof.
  intros HP
    (base_date & db0 & db1 & Hc0 & Hloop & Hc1 & _)%insert_sample_tickets_inv
    Hc Ht Hc' Ht' Hx.
  assert (db0 = db) as -> by congruence.
  assert (db1 = db') as -> by congruence.
  eapply (insert_loop_new_rows P); [|done..]. intros i g r g'. apply HP.
Qed.

Section Laws.
Hypothesis choice_from_list : ChoiceFromList.
Hypothesis randint_in_range : RandintInRange.

Lemma sample_ticket_in_domain base_date i g r g' :
  sample_ticket base_date i g = Ok (r, g') → ticket_in_domain r.
Proof using choice_from_list randint_in_range.
  unfold sample_ticket.
  destruct (rs_randint 0 60 g) as [k g1].
  destruct (datetime_add_us base_date (timedelta_days k))
    as [creacion|]; [simpl|discriminate].
  destruct (rs_exponential 24 g1) as [horas g2].
  destruct (rs_random g2) as [u g3].
  assert (∀ (a : list string) p g e g',
            a ≠ [] → rs_choice a p g = (e, g') → e ∈ a) as Hchoice.
  { intros a p g0 e g0' Ha Heq.
    pose proof (choice_from_list a p g0 Ha) as Hin. by rewrite Heq in Hin. }
  destruct (negb (Qle_bool u (2 # 10))).
  - destruct (datetime_add_us creacion (timedelta_hours horas))
      as [res|]; [simpl|discriminate].
    destruct (rs_choice ["Resuelto"; "Cerrado"] _ g3) as [est g4] eqn:Hest.
    simpl.
    pose proof (randint_in_range 1 6 g4 ltac:(lia)) as Hsat.
    destruct (rs_randint 1 6 g4) as [s g5].
    destruct (rs_choice categorias None g5) as [cat g6] eqn:Hcat.
    destruct (rs_choice prioridades _ g6) as [pri g7] eqn:Hpri.
    destruct (rs_choice agentes None g7) as [age g8] eqn:Hage.
    destruct (rs_choice canales None g8) as [can g9] eqn:Hcan.
    intros [= <- <-]. unfold ticket_in_domain. simpl.
    apply Hchoice in Hest, Hcat, Hpri, Hage, Hcan; try done.
    split; [done|]. split; [done|]. split.
    { unfold estados. apply elem_of_cons in Hest as [->|Hest].
      - do 2 right. by left.
      - apply elem_of_cons in Hest as [->|Hest%elem_of_nil]; [|done].
        do 3 right. by left. }
    split; [done|]. split; [done|].
    intros s' [= <-]. simpl in Hsat. lia.
  - destruct (rs_choice ["Abierto"; "En Progreso"] _ g3) as [est g4] eqn:Hest.
    simpl.
    destruct (rs_choice categorias None g4) as [cat g6] eqn:Hcat.
    destruct (rs_choice prioridades _ g6) as [pri g7] eqn:Hpri.
    destruct (rs_choice agentes None g7) as [age g8] eqn:Hage.
    destruct (rs_choice canales None g8) as [can g9] eqn:Hcan.
    intros [= <- <-]. unfold ticket_in_domain. simpl.
    apply Hchoice in Hest, Hcat, Hpri, Hage, Hcan; try done.
    split; [done|]. split; [done|]. split.
    { unfold estados. apply elem_of_cons in Hest as [->|Hest].
      - by left.
      - apply elem_of_cons in Hest as [->|Hest%elem_of_nil]; [|done].
        right. by left. }
    split; [done|]. split; [done|]. by intros s' [=].
Qed.

(** Every row that [insert_sample_tickets] adds has its category,
    priority, status, channel and agent among the values listed in the
    method, and a satisfaction, when it has one, between 1 and 5. *)
Theorem insert_sample_tickets_in_domain now n self self' db db' t t' x :
  insert_sample_tickets now n self = Ok (tt, self') →
  conn self = Some db → tickets db = Some t →
  conn self' = Some db' → tickets db' = Some t' →
  x ∈ rows t' → x ∈ rows t ∨ ticket_in_domain x.2.
Proof using choice_from_list randint_in_range.
  apply (insert_sample_tickets_new_rows ticket_in_domain).
  intros base_date i g r g'. apply sample_ticket_in_domain.
Qed.
End Laws.
End GeneratorStore.

Lemma lcg_randint_in_range : @RandintInRange Z lcg_random.
Proof.
  intros lo hi s Hlt. simpl.
  pose proof (Z.mod_pos_bound (lcg_step s) (hi - lo) ltac:(lia)). lia.
Qed.

Lemma insert_sample_tickets_appends_witness :
  ∃ db' t' new,
    conn sampled_analyzer = Some db'
    ∧ tickets db' = Some t'
    ∧ rows t' = (rows (table_of []) ++ new)%list
    ∧ (length new ≤ 6)%nat.
Proof.
  assert (Hrun : @insert_sample_tickets Z lcg_random (noon (ymd 2024 6 1)) 6
                   (analyzer_on []) = Ok (tt, sampled_analyzer))
    by (vm_compute; reflexivity).
  destruct (insert_sample_tickets_appends (noon (ymd 2024 6 1)) 6
              (analyzer_on []) sampled_analyzer (database_of [])
              (table_of []) Hrun eq_refl eq_refl)
    as (db' & t' & new & H1 & H2 & _ & H3 & H4 & _).
  exists db', t', new. exact (conj H1 (conj H2 (conj H3 H4))).
Defined.

Lemma table_of_nil_ok : table_ok (table_of []).
Proof.
  unfold table_ok. simpl. split; [apply NoDup_nil_2|].
  split; [apply NoDup_nil_2|apply Forall_nil_2].
Qed.

Lemma insert_sample_tickets_keeps_constraints_witness :
  ∃ db' t',
    conn sampled_analyzer = Some db' ∧ tickets db' = Some t' ∧ table_ok t'.
Proof.
  assert (Hrun : @insert_sample_tickets Z lcg_random (noon (ymd 2024 6 1)) 6
                   (analyzer_on []) = Ok (tt, sampled_analyzer))
    by (vm_compute; reflexivity).
  exact (insert_sample_tickets_keeps_constraints (noon (ymd 2024 6 1)) 6
           (analyzer_on []) sampled_analyzer (database_of []) (table_of [])
           Hrun eq_refl eq_refl table_of_nil_ok).
Defined.

Lemma insert_sample_tickets_again_witness :
  ∃ db1 t1 db2 t2,
    conn sampled_analyzer = Some db1 ∧ tickets db1 = Some t1
    ∧ conn sampled_again = Some db2 ∧ tickets db2 = Some t2
    ∧ rows t2 = rows t1.
Proof.
  assert (Hrun1 : @insert_sample_tickets Z lcg_random (noon (ymd 2024 6 1)) 6
                    (analyzer_on []) = Ok (tt, sampled_analyzer))
    by (vm_compute; reflexivity).
  assert (Hrun2 : @insert_sample_tickets Z lcg_random (noon (ymd 2024 6 2)) 4
                    sampled_analyzer = Ok (tt, sampled_again))
    by (vm_compute; reflexivity).
  exact (insert_sample_tickets_again (noon (ymd 2024 6 1))
           (noon (ymd 2024 6 2)) 6 4 (analyzer_on []) sampled_analyzer
           sampled_again (database_of []) (table_of []) Hrun1 Hrun2
           ltac:(lia) eq_refl eq_refl).
Defined.

Lemma insert_sample_tickets_in_domain_witness :
  @insert_sample_tickets Z lcg_random (noon (ymd 2024 6 1)) 6
    (analyzer_on []) = Ok (tt, sampled_analyzer)
  ∧ ∀ db' t' x,
      conn sampled_analyzer = Some db' → tickets db' = Some t' →
      x ∈ rows t' → ticket_in_domain x.2.
Proof.
  assert (Hrun : @insert_sample_tickets Z lcg_random (noon (ymd 2024 6 1)) 6
                   (analyzer_on []) = Ok (tt, sampled_analyzer))
    by (vm_compute; reflexivity).
  split; [exact Hrun|].
  intros db' t' x Hc Ht Hx.
  destruct (insert_sample_tickets_in_domain lcg_choice_from_list
              lcg_randint_in_range (noon (ymd 2024 6 1)) 6 (analyzer_on [])
              sampled_analyzer (database_of []) db' (table_of []) t' x
              Hrun eq_refl eq_refl Hc Ht Hx) as [Hold|Hdom]; [|exact Hdom].
  exact (False_ind _ (proj1 (elem_of_nil x) Hold)).
Defined.

(** ** More on the metrics *)

(** The fields of the snapshot, one by one. *)
Lemma metrics_of_frame_fields df m :
  metrics_of_frame df = Ok m →
  total_tickets m = len df
  ∧ tickets_resueltos m = len (filter resuelto df)
  ∧ tickets_abiertos m = len df - len (filter resuelto df)
  ∧ tasa_resolucion m
    = (if 0 <? len df
       then PFloat (round2 (inject_Z (len (filter resuelto df))
                            / inject_Z (len df) * 100))
       else PInt 0)
  ∧ tiempo_promedio_resolucion_horas m
    = (if 0 <? len (omap tiempo_resolucion_horas df)
       then PFloat (round2 (series_mean (omap tiempo_resolucion_horas df)))
       else PInt 0)
  ∧ satisfaccion_promedio m
    = (if 0 <? len (inject_Z <$> omap satisfaccion_cliente df)
       then PFloat (round2 (series_mean
                              (inject_Z <$> omap satisfaccion_cliente df)))
       else PInt 0)
  ∧ sla_24h m
    = (if 0 <? len (omap tiempo_resolucion_horas df)
       then PFloat (round2 (inject_Z
                              (len (filter (λ h, Qle_bool h 24)
                                      (omap tiempo_resolucion_horas df)))
                            / inject_Z (len (omap tiempo_resolucion_horas df))
                            * 100))
       else PInt 0)
  ∧ tickets_por_categoria m = value_counts (categoria <$> df)
  ∧ tickets_por_prioridad m = value_counts (prioridad <$> df)
  ∧ tickets_por_canal m = value_counts (canal <$> df).
Proof.
  unfold metrics_of_frame. intros Hm.
  apply bind_Ok in Hm as (tasa & Htasa & Hm).
  apply bind_Ok in Hm as (sla & Hsla & Hm).
  injection Hm as <-. simpl.
  destruct (Z.ltb_spec 0 (len df)) as [Hn|Hn];
    [rewrite (percent_Ok _ _ Hn) in Htasa|]; injection Htasa as <-;
    (destruct (Z.ltb_spec 0 (len (omap tiempo_resolucion_horas df)))
       as [Hh|Hh]; [rewrite (percent_Ok _ _ Hh) in Hsla|];
     injection Hsla as <-);
    destruct (0 <? len (inject_Z <$> omap satisfaccion_cliente df));
    simpl; repeat split; reflexivity.
Qed.

Lemma calculate_metrics_frame self db t :
  conn self = Some db → tickets db = Some t →
  ∃ m self',
    calculate_metrics self = Ok (m, self')
    ∧ metrics_of_frame (snd <$> rows t) = Ok m.
Proof.
  intros Hc Ht. destruct (metrics_of_frame_Ok (snd <$> rows t)) as [m Hm].
  exists m. eexists. split; [|done].
  by apply (calculate_metrics_connected _ db t).
Qed.

Lemma filter_none {A} (P : A → Prop) `{∀ x, Decision (P x)} (l : list A) :
  (∀ x, x ∈ l → ¬ P x) → filter P l = [].
Proof.
  induction l as [|x l IH]; [done|]. intros Hno.
  rewrite filter_cons_False by (apply Hno; by left).
  apply IH. intros y Hy. apply Hno. by right.
Qed.

Lemma value_counts_lookup (col : list string) (k : string) :
  value_counts col !! k
  = if decide (k ∈ col) then Some (len (filter (λ x, x = k) col)) else None.
Proof.
  induction col as [|x col IH]; [done|].
  change (value_counts (x :: col))
    with (<[x := default 0 (value_counts col !! x) + 1]> (value_counts col)).
  destruct (decide (x = k)) as [->|Hne].
  - rewrite lookup_insert_eq, IH, (decide_True (P := k ∈ k :: col))
      by (by left).
    rewrite filter_cons_True by done. f_equal. unfold len. simpl length.
    destruct (decide (k ∈ col)) as [Hin|Hnin]; simpl; [lia|].
    rewrite filter_none; [simpl; lia|]. by intros y Hy ->.
  - rewrite lookup_insert_ne, IH by done.
    rewrite filter_cons_False by done.
    destruct (decide (k ∈ col)) as [Hin|Hnin].
    + rewrite decide_True by (by right). done.
    + rewrite decide_False; [done|].
      intros [?|?]%elem_of_cons; [by subst|done].
Qed.

Lemma len_filter_pos {A} (P : A → Prop) `{∀ x, Decision (P x)} (l : list A) x :
  x ∈ l → P x → 0 < len (filter P l).
Proof.
  intros Hx HP. assert (x ∈ filter P l) as Hin by (by apply list_elem_of_filter).
  unfold len. destruct (filter P l); [by apply elem_of_nil in Hin|].
  simpl length. lia.
Qed.

Lemma value_counts_spec (col : list string) (k : string) (c : Z) :
  value_counts col !! k = Some c
  ↔ 0 < c ∧ c = len (filter (λ x, x = k) col).
Proof.
  rewrite value_counts_lookup. destruct (decide (k ∈ col)) as [Hin|Hnin].
  - split.
    + intros [= <-]. split; [|done]. by eapply len_filter_pos.
    + by intros [_ ->].
  - split; [done|]. intros [Hpos ->].
    rewrite filter_none in Hpos; [done|]. by intros y Hy ->.
Qed.

Lemma filter_fmap_len {A} (f : A → string) (k : string) (l : list A) :
  len (filter (λ x, x = k) (f <$> l)) = len (filter (λ a, f a = k) l).
Proof.
  unfold len. induction l as [|a l IH]; [done|]. rewrite fmap_cons.
  destruct (decide (f a = k)).
  - rewrite !filter_cons_True by done. simpl length. lia.
  - rewrite !filter_cons_False by done. done.
Qed.

(** The grouped counts of the snapshot: a value of [categoria],
    [prioridad] or [canal] is a key exactly when some ticket has it, and
    it is mapped to the number of tickets that have it. *)
Theorem calculate_metrics_grouped_counts self db t :
  conn self = Some db → tickets db = Some t →
  ∃ m self',
    calculate_metrics self = Ok (m, self')
    ∧ (∀ k c, tickets_por_categoria m !! k = Some c
              ↔ 0 < c ∧ c = len (filter (λ r, categoria r.2 = k) (rows t)))
    ∧ (∀ k c, tickets_por_prioridad m !! k = Some c
              ↔ 0 < c ∧ c = len (filter (λ r, prioridad r.2 = k) (rows t)))
    ∧ (∀ k c, tickets_por_canal m !! k = Some c
              ↔ 0 < c ∧ c = len (filter (λ r, canal r.2 = k) (rows t))).
Proof.
  intros Hc Ht. destruct (calculate_metrics_frame _ _ _ Hc Ht)
    as (m & self' & Hrun & Hm).
  exists m, self'. split; [done|].
  apply metrics_of_frame_fields in Hm
    as (_ & _ & _ & _ & _ & _ & _ & -> & -> & ->).
  split; [|split]; intros k c;
    rewrite value_counts_spec, <- list_fmap_compose, filter_fmap_len; done.
Qed.

Lemma calculate_metrics_grouped_counts_witness :
  ∃ m self',
    calculate_metrics (analyzer_on scenario_tickets) = Ok (m, self')
    ∧ (∀ k c, tickets_por_categoria m !! k = Some c
              ↔ 0 < c
                ∧ c = len (filter (λ r : Z * Ticket, categoria r.2 = k)
                             (rows (table_of scenario_tickets)))).
Proof.
  destruct (calculate_metrics_grouped_counts (analyzer_on scenario_tickets)
              (database_of scenario_tickets) (table_of scenario_tickets)
              eq_refl eq_refl) as (m & self' & Hrun & Hcat & _).
  exists m, self'. exact (conj Hrun Hcat).
Defined.

Lemma counts_total_insert (m : gmap string Z) (k : string) (c : Z) :
  counts_total (<[k := c]> m) = counts_total m - default 0 (m !! k) + c.
Proof.
  unfold counts_total.
  assert (Hcomm : ∀ (m' : gmap string Z) (j1 j2 : string) (z1 z2 y : Z),
            j1 ≠ j2 → m' !! j1 = Some z1 → m' !! j2 = Some z2 →
            z1 + (z2 + y) = z2 + (z1 + y)) by (intros; lia).
  destruct (m !! k) as [c0|] eqn:Hk; simpl.
  - rewrite <- insert_delete_eq.
    rewrite map_fold_insert_L; [|apply Hcomm|apply lookup_delete_eq].
    rewrite (map_fold_delete_L _ _ k c0 m); [lia|apply Hcomm|done].
  - rewrite map_fold_insert_L; [lia|apply Hcomm|done].
Qed.

Lemma value_counts_total (col : list string) :
  counts_total (value_counts col) = len col.
Proof.
  induction col as [|x col IH]; [done|].
  change (value_counts (x :: col))
    with (<[x := default 0 (value_counts col !! x) + 1]> (value_counts col)).
  rewrite counts_total_insert, IH. unfold len. simpl length. lia.
Qed.

(** Each grouping covers every ticket once: the counts by category, by
    priority and by channel each add up to the total of the snapshot. *)
Theorem calculate_metrics_grouped_totals self db t :
  conn self = Some db → tickets db = Some t →
  ∃ m self',
    calculate_metrics self = Ok (m, self')
    ∧ counts_total (tickets_por_categoria m) = total_tickets m
    ∧ counts_total (tickets_por_prioridad m) = total_tickets m
    ∧ counts_total (tickets_por_canal m) = total_tickets m.
Proof.
  intros Hc Ht. destruct (calculate_metrics_frame _ _ _ Hc Ht)
    as (m & self' & Hrun & Hm).
  exists m, self'. split; [done|].
  apply metrics_of_frame_fields in Hm
    as (-> & _ & _ & _ & _ & _ & _ & -> & -> & ->).
  rewrite !value_counts_total. unfold len. by rewrite !length_fmap.
Qed.

Lemma calculate_metrics_grouped_totals_witness :
  ∃ m self',
    calculate_metrics (analyzer_on scenario_tickets) = Ok (m, self')
    ∧ counts_total (tickets_por_categoria m) = total_tickets m
    ∧ counts_total (tickets_por_prioridad m) = total_tickets m
    ∧ counts_total (tickets_por_canal m) = total_tickets m.
Proof.
  exact (calculate_metrics_grouped_totals (analyzer_on scenario_tickets)
           (database_of scenario_tickets) (table_of scenario_tickets)
           eq_refl eq_refl).
Defined.

(** ** Means and rounding *)

Lemma inject_Z_len_pos {A} (l : list A) : l ≠ [] → (0 < inject_Z (len l))%Q.
Proof.
  intros Hl. unfold len. destruct l; [done|]. simpl length.
  unfold Qlt. simpl. lia.
Qed.

Lemma inject_Z_len_cons {A} (x : A) (l : list A) :
  (inject_Z (len (x :: l)) == inject_Z (len l) + 1)%Q.
Proof.
  unfold len. simpl length. rewrite Nat2Z.inj_succ, <- Z.add_1_r.
  by rewrite inject_Z_plus.
Qed.

Lemma Qsum_lower (lo : Q) (l : list Q) :
  Forall (λ q, lo <= q)%Q l → (lo * inject_Z (len l) <= Qsum l)%Q.
Proof.
  induction 1 as [|x l Hx Hl IH].
  - change (lo * 0 <= 0)%Q. lra.
  - rewrite inject_Z_len_cons. change (Qsum (x :: l)) with (x + Qsum l)%Q.
    nra.
Qed.

Lemma Qsum_upper (hi : Q) (l : list Q) :
  Forall (λ q, q <= hi)%Q l → (Qsum l <= hi * inject_Z (len l))%Q.
Proof.
  induction 1 as [|x l Hx Hl IH].
  - change (0 <= hi * 0)%Q. lra.
  - rewrite inject_Z_len_cons. change (Qsum (x :: l)) with (x + Qsum l)%Q.
    nra.
Qed.

Lemma series_mean_lower (lo : Q) (l : list Q) :
  l ≠ [] → Forall (λ q, lo <= q)%Q l → (lo <= series_mean l)%Q.
Proof.
  intros Hl Hall. unfold series_mean.
  apply Qle_shift_div_l; [by apply inject_Z_len_pos|by apply Qsum_lower].
Qed.

Lemma series_mean_upper (hi : Q) (l : list Q) :
  l ≠ [] → Forall (λ q, q <= hi)%Q l → (series_mean l <= hi)%Q.
Proof.
  intros Hl Hall. unfold series_mean.
  apply Qle_shift_div_r; [by apply inject_Z_len_pos|by apply Qsum_upper].
Qed.

Lemma round2_lower (q : Q) (lo : Z) :
  (inject_Z lo <= q)%Q → (inject_Z lo <= round2 q)%Q.
Proof.
  intros Hlo. unfold round2. rewrite Qred_correct.
  assert (lo * 100 ≤ round_half_even (q * 100)) as Hr.
  { unfold round_half_even.
    assert (lo * 100 ≤ Qfloor (q * 100)) as Hf.
    { rewrite <- (Qfloor_Z (lo * 100)). apply Qfloor_resp_le.
      rewrite inject_Z_mult. change (inject_Z 100) with 100%Q. lra. }
    destruct (q * 100 - inject_Z (Qfloor (q * 100)) ?= 1 # 2)%Q;
      [destruct (Z.even _)|..]; lia. }
  unfold Qle. simpl. lia.
Qed.

Lemma round2_upper (q : Q) (hi : Z) :
  (q <= inject_Z hi)%Q → (round2 q <= inject_Z hi)%Q.
Proof.
  intros Hhi. unfold round2. rewrite Qred_correct.
  destruct (round_half_even_between (q * 100)
              (Qfloor (q * 100)) (hi * 100)) as [_ Hr].
  - apply Qfloor_le.
  - rewrite inject_Z_mult. change (inject_Z 100) with 100%Q. lra.
  - unfold Qle. simpl. lia.
Qed.

Lemma len_nonempty {A} (l : list A) : 0 < len l → l ≠ [].
Proof. by intros Hl ->. Qed.

(** With satisfactions between 1 and 5, the mean satisfaction of the
    snapshot is the integer 0 exactly when no ticket has a satisfaction,
    and a float between 1 and 5 as soon as some ticket has one. *)
Theorem calculate_metrics_satisfaction_range self db t :
  conn self = Some db → tickets db = Some t →
  (∀ x s, x ∈ rows t → satisfaccion_cliente x.2 = Some s → 1 ≤ s ≤ 5) →
  ∃ m self',
    calculate_metrics self = Ok (m, self')
    ∧ (((∀ x, x ∈ rows t → satisfaccion_cliente x.2 = None)
        ∧ satisfaccion_promedio m = PInt 0)
       ∨ ((∃ x, x ∈ rows t ∧ is_Some (satisfaccion_cliente x.2))
          ∧ ∃ q, satisfaccion_promedio m = PFloat q
                 ∧ (1 <= q)%Q ∧ (q <= 5)%Q)).
Proof.
  intros Hc Ht Hrange. destruct (calculate_metrics_frame _ _ _ Hc Ht)
    as (m & self' & Hrun & Hm).
  exists m, self'. split; [done|].
  apply metrics_of_frame_fields in Hm
    as (_ & _ & _ & _ & _ & -> & _).
  set (sats := omap satisfaccion_cliente (snd <$> rows t)).
  assert (Hsats : ∀ s, s ∈ sats →
            1 ≤ s ≤ 5 ∧ ∃ x, x ∈ rows t ∧ satisfaccion_cliente x.2 = Some s).
  { intros s (r & Hr & Hs)%list_elem_of_omap.
    apply list_elem_of_fmap in Hr as (x & -> & Hx). eauto. }
  destruct (Z.ltb_spec 0 (len (inject_Z <$> sats))) as [Hpos|Hzero].
  - right. split.
    { unfold len in Hpos. rewrite length_fmap in Hpos.
      destruct sats as [|s sats'] eqn:Hsat; [simpl in Hpos; lia|].
      destruct (Hsats s ltac:(by left)) as (_ & x & Hx & Hs).
      exists x. split; [done|]. rewrite Hs. by eexists. }
    eexists. split; [done|].
    assert (Forall (λ q, 1 <= q ∧ q <= 5)%Q (inject_Z <$> sats)) as Hall.
    { apply Forall_fmap, Forall_forall. intros s [Hs _]%Hsats. simpl.
      unfold Qle. simpl. lia. }
    split.
    + apply (round2_lower _ 1), series_mean_lower; [by apply len_nonempty|].
      eapply Forall_impl; [exact Hall|]. simpl. tauto.
    + apply (round2_upper _ 5), series_mean_upper; [by apply len_nonempty|].
      eapply Forall_impl; [exact Hall|]. simpl. tauto.
  - left. split; [|done]. intros x Hx.
    destruct (satisfaccion_cliente x.2) as [s|] eqn:Hs; [|done].
    assert (s ∈ sats) as Hin.
    { apply list_elem_of_omap. exists x.2. split; [|done].
      apply list_elem_of_fmap. by exists x. }
    unfold len in Hzero. rewrite length_fmap in Hzero.
    destruct sats; [by apply elem_of_nil in Hin|simpl in Hzero; lia].
Qed.

Lemma calculate_metrics_satisfaction_range_witness :
  ∃ m self',
    calculate_metrics (analyzer_on scenario_tickets) = Ok (m, self')
    ∧ (((∀ x, x ∈ rows (table_of scenario_tickets) →
              satisfaccion_cliente x.2 = None)
        ∧ satisfaccion_promedio m = PInt 0)
       ∨ ((∃ x, x ∈ rows (table_of scenario_tickets)
                ∧ is_Some (satisfaccion_cliente x.2))
          ∧ ∃ q, satisfaccion_promedio m = PFloat q
                 ∧ (1 <= q)%Q ∧ (q <= 5)%Q)).
Proof.
  apply (calculate_metrics_satisfaction_range (analyzer_on scenario_tickets)
           (database_of scenario_tickets) (table_of scenario_tickets)
           eq_refl eq_refl).
  intros x s Hx Hs. simpl in Hx.
  repeat (apply elem_of_cons in Hx as [->|Hx];
          [simpl in Hs; first [discriminate | injection Hs as <-; lia]|]).
  exact (False_ind _ (proj1 (elem_of_nil x) Hx)).
Defined.

(** ** Metrics of tickets that keep the invariant *)

Lemma len_filter_fmap {A B} (f : A → B) (P : B → Prop)
    `{∀ y, Decision (P y)} (l : list A) :
  len (filter P (f <$> l)) = len (filter (λ a, P (f a)) l).
Proof.
  unfold len. induction l as [|a l IH]; [done|]. rewrite fmap_cons.
  destruct (decide (P (f a))).
  - rewrite !filter_cons_True by done. simpl length. lia.
  - rewrite !filter_cons_False by done. done.
Qed.

Lemma len_filter_ext {A} (P Q : A → Prop) `{∀ x, Decision (P x)}
    `{∀ x, Decision (Q x)} (l : list A) :
  (∀ x, x ∈ l → P x ↔ Q x) → len (filter P l) = len (filter Q l).
Proof.
  unfold len. induction l as [|a l IH]; [done|]. intros Hext.
  assert (length (filter P l) = length (filter Q l)) as IH'.
  { apply Nat2Z.inj, IH. intros x Hx. apply Hext. by right. }
  pose proof (Hext a ltac:(by left)) as Ha.
  destruct (decide (P a)) as [HP|HP].
  - rewrite (filter_cons_True P) by done.
    rewrite (filter_cons_True Q) by tauto. simpl length. by rewrite IH'.
  - rewrite (filter_cons_False P) by done.
    rewrite (filter_cons_False Q) by tauto. by rewrite IH'.
Qed.

Lemma len_omap {A B} (f : A → option B) (l : list A) :
  len (omap f l) = len (filter (λ a, is_Some (f a)) l).
Proof.
  unfold len. induction l as [|a l IH]; [done|]. simpl.
  destruct (f a) as [b|] eqn:Hb.
  - rewrite filter_cons_True by (rewrite Hb; eauto). simpl length.
    change (list_omap A B f l) with (omap f l). lia.
  - rewrite filter_cons_False; [exact IH|]. rewrite Hb. by intros [? [=]].
Qed.

Lemma len_within_24h (df : list Ticket) :
  len (filter (λ h, Qle_bool h 24) (omap tiempo_resolucion_horas df))
  = len (filter (λ r, within_24h r) df).
Proof.
  unfold len. induction df as [|r df IH]; [done|].
  assert (Hw : within_24h r = match tiempo_resolucion_horas r with
                              | Some h => Qle_bool h 24
                              | None => false
                              end) by done.
  cbn [omap list_omap]. change (list_omap _ _ tiempo_resolucion_horas df)
    with (omap tiempo_resolucion_horas df).
  destruct (tiempo_resolucion_horas r) as [h|].
  - destruct (Qle_bool h 24) eqn:Hle.
    + rewrite (filter_cons_True (λ h, Qle_bool h 24)) by (simpl; rewrite Hle; simpl; tauto).
      rewrite (filter_cons_True (λ r, within_24h r)) by (simpl; rewrite Hw, ?Hle; simpl; tauto).
      simpl length. lia.
    + rewrite (filter_cons_False (λ h, Qle_bool h 24)) by (simpl; rewrite Hle; simpl; tauto).
      rewrite (filter_cons_False (λ r, within_24h r)) by (simpl; rewrite Hw, ?Hle; simpl; tauto).
      exact IH.
  - rewrite (filter_cons_False (λ r, within_24h r)) by (simpl; rewrite Hw, ?Hle; simpl; tauto).
    exact IH.
Qed.

Lemma round_half_even_Qeq (q q' : Q) :
  (q == q')%Q → round_half_even q = round_half_even q'.
Proof.
  intros Heq. unfold round_half_even.
  assert (Qfloor q = Qfloor q') as -> by (by apply Qfloor_comp).
  assert ((q - inject_Z (Qfloor q') ?= 1 # 2)%Q
          = (q' - inject_Z (Qfloor q') ?= 1 # 2)%Q) as ->; [|done].
  apply Qcompare_comp; [by rewrite Heq|reflexivity].
Qed.

Lemma round2_Qeq (q q' : Q) : (q == q')%Q → round2 q = round2 q'.
Proof.
  intros Heq. unfold round2.
  rewrite (round_half_even_Qeq (q * 100) (q' * 100)); [done|].
  by rewrite Heq.
Qed.

Lemma round2_all (n : Z) :
  0 < n → round2 (inject_Z n / inject_Z n * 100) = 100%Q.
Proof.
  intros Hn. rewrite (round2_Qeq _ 100); [reflexivity|].
  assert (¬ (inject_Z n == 0)%Q) as Hne.
  { unfold Qeq. simpl. lia. }
  field. exact Hne.
Qed.

Lemma round2_none (n : Z) :
  0 < n → round2 (inject_Z 0 / inject_Z n * 100) = 0%Q.
Proof.
  intros Hn. rewrite (round2_Qeq _ 0); [reflexivity|].
  assert (¬ (inject_Z n == 0)%Q) as Hne.
  { unfold Qeq. simpl. lia. }
  change (inject_Z 0) with 0%Q. field. exact Hne.
Qed.

(** On tickets that keep the generator's invariant, the resolution times
    and the satisfactions that enter the snapshot are those of the
    resolved tickets, one each. So the two means and the 24h SLA rate are
    the integer 0 when no ticket is resolved and floats otherwise, and the
    SLA rate is 100.0 when every resolved ticket has a resolution time of
    at most 24 hours and 0.0 when none has. *)
Theorem calculate_metrics_over_resolved self db t :
  conn self = Some db → tickets db = Some t →
  (∀ x, x ∈ rows t → ticket_invariant x.2) →
  ∃ m self',
    calculate_metrics self = Ok (m, self')
    ∧ len (filter (λ r, is_Some (tiempo_resolucion_horas r.2)) (rows t))
      = tickets_resueltos m
    ∧ len (filter (λ r, is_Some (satisfaccion_cliente r.2)) (rows t))
      = tickets_resueltos m
    ∧ (tickets_resueltos m = 0 →
       tiempo_promedio_resolucion_horas m = PInt 0
       ∧ satisfaccion_promedio m = PInt 0
       ∧ sla_24h m = PInt 0)
    ∧ (0 < tickets_resueltos m →
       (∃ q, tiempo_promedio_resolucion_horas m = PFloat q)
       ∧ (∃ q, satisfaccion_promedio m = PFloat q)
       ∧ (∃ q, sla_24h m = PFloat q)
       ∧ ((∀ x, x ∈ rows t → resuelto x.2 → within_24h x.2) →
          sla_24h m = PFloat 100)
       ∧ ((∀ x, x ∈ rows t → ¬ within_24h x.2) → sla_24h m = PFloat 0)).
Proof.
  intros Hc Ht Hinv. destruct (calculate_metrics_frame _ _ _ Hc Ht)
    as (m & self' & Hrun & Hm).
  exists m, self'. split; [done|].
  apply metrics_of_frame_fields in Hm
    as (_ & Hres & _ & _ & Htiempo & Hsat & Hsla & _).
  rewrite len_filter_fmap in Hres.
  assert (Htime : len (filter (λ r : Z * Ticket,
                          is_Some (tiempo_resolucion_horas r.2)) (rows t))
                  = tickets_resueltos m).
  { rewrite Hres. apply len_filter_ext. intros x Hx.
    destruct (Hinv x Hx) as (H1 & _ & H3). by rewrite <- H1, H3. }
  assert (Hsats : len (filter (λ r : Z * Ticket,
                          is_Some (satisfaccion_cliente r.2)) (rows t))
                  = tickets_resueltos m).
  { rewrite Hres. apply len_filter_ext. intros x Hx.
    destruct (Hinv x Hx) as (_ & H2 & H3). by rewrite <- H2, H3. }
  assert (Hlt : len (omap tiempo_resolucion_horas (snd <$> rows t))
                = tickets_resueltos m).
  { by rewrite len_omap, len_filter_fmap. }
  assert (Hls : len (inject_Z <$> omap satisfaccion_cliente (snd <$> rows t))
                = tickets_resueltos m).
  { unfold len. rewrite length_fmap.
    change (len (omap satisfaccion_cliente (snd <$> rows t))
            = tickets_resueltos m).
    by rewrite len_omap, len_filter_fmap. }
  rewrite len_within_24h, len_filter_fmap, Hlt in Hsla.
  rewrite Hlt in Htiempo. rewrite Hls in Hsat.
  split; [exact Htime|]. split; [exact Hsats|]. split.
  - intros Hzero. rewrite Hzero in Htiempo, Hsat, Hsla. done.
  - intros Hpos. apply Z.ltb_lt in Hpos as Hpos'.
    rewrite Hpos' in Htiempo, Hsat, Hsla.
    split; [by eexists|]. split; [by eexists|]. split; [by eexists|].
    split.
    + intros Hall. rewrite Hsla. f_equal.
      assert (len (filter (λ a : Z * Ticket, within_24h a.2) (rows t))
              = tickets_resueltos m) as ->.
      { rewrite Hres. apply len_filter_ext. intros x Hx. split.
        - intros Hw. destruct (Hinv x Hx) as (H1 & _ & H3).
          apply H3, H1. unfold within_24h in Hw.
          destruct (tiempo_resolucion_horas x.2); [by eexists|done].
        - by apply Hall. }
      by apply round2_all.
    + intros Hnone. rewrite Hsla. f_equal.
      rewrite (filter_none (λ a : Z * Ticket, within_24h a.2)) by exact Hnone.
      by apply round2_none.
Qed.

Lemma calculate_metrics_over_resolved_witness :
  ∃ m self' db' t',
    calculate_metrics sampled_analyzer = Ok (m, self')
    ∧ conn sampled_analyzer = Some db' ∧ tickets db' = Some t'
    ∧ len (filter (λ r : Z * Ticket,
             is_Some (tiempo_resolucion_horas r.2)) (rows t'))
      = tickets_resueltos m.
Proof.
  assert (Hrun : @insert_sample_tickets Z lcg_random (noon (ymd 2024 6 1)) 6
                   (analyzer_on []) = Ok (tt, sampled_analyzer))
    by (vm_compute; reflexivity).
  destruct (conn sampled_analyzer) as [db'|] eqn:Hc;
    [|vm_compute in Hc; discriminate].
  destruct (tickets db') as [t'|] eqn:Ht.
  2: { revert Ht. vm_compute in Hc. injection Hc as <-. discriminate. }
  destruct (calculate_metrics_over_resolved sampled_analyzer db' t' Hc Ht)
    as (m & self' & Hcalc & Htime & _).
  - intros x Hx.
    destruct (insert_sample_tickets_new_rows ticket_invariant
                (noon (ymd 2024 6 1)) 6 (analyzer_on []) sampled_analyzer
                (database_of []) db' (table_of []) t' x
                (λ base_date, sample_ticket_invariant lcg_choice_from_list
                                base_date)
                Hrun eq_refl eq_refl Hc Ht Hx) as [Hold|Hinv]; [|exact Hinv].
    exact (False_ind _ (proj1 (elem_of_nil x) Hold)).
  - exists m, self', db', t'.
    exact (conj Hcalc (conj eq_refl (conj Ht Htime))).
Defined.

(** ** More on the weekly report *)

Lemma aggregate_sums k b groups :
  sum_creados (aggregate k b groups) = sum_creados groups + 1
  ∧ sum_resueltos (aggregate k b groups) = sum_resueltos groups + count_if b.
Proof.
  induction groups as [|[[k' c] r] groups [IHc IHr]]; simpl; [lia|].
  destruct (decide (k = k')); [simpl; lia|].
  destruct (decide (String.le k' k)); simpl; lia.
Qed.

Lemma group_by_semana_sums semana ts :
  sum_creados (group_by_semana semana ts) = len ts
  ∧ sum_resueltos (group_by_semana semana ts) = len (filter resuelto ts).
Proof.
  unfold group_by_semana.
  assert (Hgen : ∀ groups,
    sum_creados (foldl (λ groups t,
                   aggregate (semana t) (bool_decide (resuelto t)) groups)
                   groups ts) = sum_creados groups + len ts
    ∧ sum_resueltos (foldl (λ groups t,
                       aggregate (semana t) (bool_decide (resuelto t)) groups)
                       groups ts)
      = sum_resueltos groups + len (filter resuelto ts)).
  { unfold len. induction ts as [|t ts IH]; intros groups; simpl; [lia|].
    destruct (IH (aggregate (semana t) (bool_decide (resuelto t)) groups))
      as [-> ->].
    destruct (aggregate_sums (semana t) (bool_decide (resuelto t)) groups)
      as [-> ->].
    destruct (decide (resuelto t)) as [Hr|Hr].
    - rewrite filter_cons_True, bool_decide_eq_true_2 by done.
      simpl. lia.
    - rewrite filter_cons_False, bool_decide_eq_false_2 by done.
      simpl. lia. }
  destruct (Hgen []) as [-> ->]. simpl. lia.
Qed.

Lemma sums_take (n : nat) (groups : list WeekRow) :
  Forall (λ x, 0 ≤ x.2 ≤ x.1.2) groups →
  0 ≤ sum_resueltos (take n groups) ≤ sum_creados (take n groups)
  ∧ sum_creados (take n groups) ≤ sum_creados groups
  ∧ sum_resueltos (take n groups) ≤ sum_resueltos groups.
Proof.
  intros Hall. revert n. induction Hall as [|x groups Hx Hall IH]; intros n.
  - rewrite take_nil. simpl. lia.
  - destruct n as [|n]; simpl.
    + specialize (IH 0%nat). rewrite take_0 in IH. simpl in IH. lia.
    + specialize (IH n). lia.
Qed.

Lemma resueltos_en_le semana k ts :
  0 ≤ resueltos_en semana k ts ≤ creados semana k ts.
Proof.
  unfold resueltos_en, creados, len.
  induction ts as [|t ts IH]; [simpl; lia|].
  destruct (decide (semana t = k)) as [Hk|Hk].
  - rewrite (filter_cons_True (λ t, semana t = k)) by done.
    destruct (decide (resuelto t)).
    + rewrite filter_cons_True by done. simpl length. lia.
    + rewrite filter_cons_False by tauto. simpl length. lia.
  - rewrite !filter_cons_False by tauto. lia.
Qed.

(** In the weekly report the resolved count of a week never exceeds its
    created count; the created counts add up to at most the number of
    tickets and the resolved counts to at most the number of resolved
    tickets, with equality when the report has fewer than 8 rows, that is
    when no week was cut off. *)
Theorem tendencia_semanal_totals self db t :
  conn self = Some db → tickets db = Some t →
  ∃ out,
    tendencia_semanal self = Ok out
    ∧ (∀ k c r, (k, c, r) ∈ out → 0 ≤ r ≤ c)
    ∧ sum_creados out ≤ len (rows t)
    ∧ sum_resueltos out ≤ len (filter (λ x, resuelto x.2) (rows t))
    ∧ ((length out < 8)%nat →
       sum_creados out = len (rows t)
       ∧ sum_resueltos out = len (filter (λ x, resuelto x.2) (rows t))).
Proof.
  intros Hc Ht. eexists. split.
  { unfold tendencia_semanal.
    by rewrite (read_sql_query_tickets_connected _ db t). }
  set (semana := strftime_YW ∘ fecha_creacion).
  set (ts := snd <$> rows t).
  destruct (group_by_semana_spec semana ts) as (_ & Hcount & _).
  destruct (group_by_semana_sums semana ts) as [Hsc Hsr].
  assert (Hall : Forall (λ x : WeekRow, 0 ≤ x.2 ≤ x.1.2)
                   (group_by_semana semana ts)).
  { apply Forall_forall. intros [[k c] r] Hin. simpl.
    destruct (Hcount _ _ _ Hin) as (_ & -> & ->). apply resueltos_en_le. }
  assert (Hlen : len ts = len (rows t)).
  { unfold ts, len. by rewrite length_fmap. }
  assert (Hres : len (filter resuelto ts)
                 = len (filter (λ x : Z * Ticket, resuelto x.2) (rows t))).
  { unfold ts. apply len_filter_fmap. }
  destruct (sums_take 8 _ Hall) as (_ & Hle1 & Hle2).
  split.
  { intros k c r Hin.
    destruct (weekly_trend_spec semana ts) as (_ & _ & Hrow & _).
    destruct (Hrow _ _ _ Hin) as (_ & -> & ->). apply resueltos_en_le. }
  unfold weekly_trend. split; [lia|]. split; [lia|].
  intros Hshort. rewrite length_take in Hshort.
  rewrite take_ge by (unfold WeekRow in *; lia). lia.
Qed.

Lemma tendencia_semanal_totals_witness :
  ∃ out,
    tendencia_semanal (analyzer_on scenario_tickets) = Ok out
    ∧ sum_creados out ≤ 5
    ∧ sum_resueltos out ≤ 4.
Proof.
  destruct (tendencia_semanal_totals (analyzer_on scenario_tickets)
              (database_of scenario_tickets) (table_of scenario_tickets)
              eq_refl eq_refl) as (out & Hrun & _ & Hc & Hr & _).
  exists out. split; [exact Hrun|]. split; [exact Hc|].
  etransitivity; [exact Hr|]. vm_compute. discriminate.
Defined.

(** ** More on the export *)






(** ** The methods in sequence *)

Lemma datetime_add_us_error dt us e :
  datetime_add_us dt us = Raise e → e = DateOutOfRange.
Proof.
  unfold datetime_add_us.
  destruct ((MINORDINAL <=? _) && (_ <=? MAXORDINAL)); [done|].
  by intros [= <-].
Qed.

Section Sequence.
Context `{RandomState G}.

Lemma sample_ticket_error base_date i g e :
  sample_ticket base_date i g = Raise e → e = DateOutOfRange.
Proof.
  unfold sample_ticket.
  destruct (rs_randint 0 60 g) as [k g1].
  destruct (datetime_add_us base_date (timedelta_days k))
    as [creacion|e1] eqn:Hadd; simpl.
  2: { intros [= <-]. by eapply datetime_add_us_error. }
  destruct (rs_exponential 24 g1) as [horas g2].
  destruct (rs_random g2) as [u g3].
  destruct (negb (Qle_bool u (2 # 10))).
  - destruct (datetime_add_us creacion (timedelta_hours horas))
      as [res|e2] eqn:Hres; simpl.
    2: { intros [= <-]. by eapply datetime_add_us_error. }
    destruct (rs_choice ["Resuelto"; "Cerrado"] _ g3) as [est g4].
    simpl. destruct (rs_randint 1 6 g4) as [s g5].
    destruct (rs_choice categorias None g5) as [cat g6].
    destruct (rs_choice prioridades _ g6) as [pri g7].
    destruct (rs_choice agentes None g7) as [age g8].
    destruct (rs_choice canales None g8) as [can g9]. done.
  - destruct (rs_choice ["Abierto"; "En Progreso"] _ g3) as [est g4].
    simpl. destruct (rs_choice categorias None g4) as [cat g6].
    destruct (rs_choice prioridades _ g6) as [pri g7].
    destruct (rs_choice agentes None g7) as [age g8].
    destruct (rs_choice canales None g8) as [can g9]. done.
Qed.

Lemma insert_loop_no_table base_date i indices g db :
  tickets db = None →
  ∃ e, insert_loop base_date (i :: indices) g db = Raise e
       ∧ (e = NoSuchTable "tickets" ∨ e = DateOutOfRange).
Proof.
  intros Ht. simpl.
  destruct (sample_ticket base_date i g) as [[r g1]|e] eqn:Hs; simpl.
  - unfold execute_insert. rewrite Ht. simpl. eauto.
  - exists e. split; [done|]. right. by eapply sample_ticket_error.
Qed.

(** Before [create_tables], on a database without the ticket table,
    [calculate_metrics], the weekly report and [export_for_powerbi] raise
    for the missing table; [insert_sample_tickets] raises as well when
    asked for at least one ticket, and does nothing to the database when
    asked for none. *)
Theorem methods_without_table self db :
  conn self = Some db → tickets db = None →
  calculate_metrics self = Raise (NoSuchTable "tickets")
  ∧ tendencia_semanal self = Raise (NoSuchTable "tickets")
  ∧ (∀ now output_path fs,
       export_for_powerbi now output_path fs self
       = Raise (NoSuchTable "tickets"))
  ∧ (∀ now n, 1 ≤ n →
       ∃ e, insert_sample_tickets now n self = Raise e
            ∧ (e = NoSuchTable "tickets" ∨ e = DateOutOfRange))
  ∧ (∀ now n self', n ≤ 0 →
       insert_sample_tickets now n self = Ok (tt, self') →
       conn self' = Some db).
Proof.
  intros Hc Ht.
  assert (read_sql_query_tickets self = Raise (NoSuchTable "tickets")) as Hr.
  { unfold read_sql_query_tickets, cursor. rewrite Hc. simpl. by rewrite Ht. }
  split.
  { unfold calculate_metrics.
    replace (read_sql_query_tickets (logger_info _ self))
      with (read_sql_query_tickets self) by reflexivity.
    by rewrite Hr. }
  split; [unfold tendencia_semanal; by rewrite Hr|].
  split.
  { intros now output_path fs. unfold export_for_powerbi.
    replace (read_sql_query_all (logger_info _ self))
      with (Raise (A := list (Z * Ticket)) (NoSuchTable "tickets")); [done|].
    unfold read_sql_query_all, cursor. simpl. rewrite Hc. simpl.
    by rewrite Ht. }
  split.
  - intros now n Hn. unfold insert_sample_tickets, cursor. simpl.
    rewrite Hc. simpl.
    destruct (datetime_add_us now (- timedelta_days 60))
      as [base_date|e] eqn:Hbase; simpl.
    + assert (∃ indices, range n = 0 :: indices) as [indices ->].
      { unfold range. destruct (Z.to_nat n) as [|k] eqn:Hk; [lia|].
        simpl. eauto. }
      destruct (insert_loop_no_table base_date 0 indices (rs_seed 42) db Ht)
        as (e & -> & He). simpl. eauto.
    + exists e. split; [done|]. right. by eapply datetime_add_us_error.
  - intros now n self' Hn (base_date & db0 & db' & Hc0 & Hloop & Hc' & _)%
      insert_sample_tickets_inv.
    assert (range n = []) as Hnil.
    { unfold range. by replace (Z.to_nat n) with 0%nat by lia. }
    rewrite Hnil in Hloop. simpl in Hloop. congruence.
Qed.
End Sequence.

Lemma methods_without_table_witness :
  calculate_metrics analyzer_fresh = Raise (NoSuchTable "tickets")
  ∧ tendencia_semanal analyzer_fresh = Raise (NoSuchTable "tickets").
Proof.
  destruct (methods_without_table (H := lcg_random) analyzer_fresh
              {| tickets := None; metricas_diarias := None |}
              eq_refl eq_refl) as (H1 & H2 & _).
  exact (conj H1 H2).
Defined.

(** ** Ticket identifiers *)

Lemma pretty_N_go_head (x : N) (s rest : string) :
  (0 < x)%N → pretty_N_go x s ≠ String "0" rest.
Proof.
  revert s. induction (N.lt_wf_0 x) as [x _ IH]; intros s Hx.
  rewrite pretty_N_go_step by done.
  destruct (decide (x < 10)%N) as [Hsmall|Hbig].
  - rewrite N.div_small, pretty_N_go_0 by done.
    rewrite N.mod_small by done. intros [= Hchar].
    apply (pretty_N_char_inj x 0) in Hchar; lia.
  - apply IH.
    + apply N.div_lt; lia.
    + apply N.div_str_pos. lia.
Qed.

Lemma pretty_Z_head (z : Z) (rest : string) :
  0 < z → pretty z ≠ String "0" rest.
Proof.
  destruct z as [|p|p]; [lia| |lia]. intros _.
  change (pretty (Z.pos p)) with (pretty (N.pos p)).
  unfold pretty, pretty_N. rewrite decide_False by done.
  by apply pretty_N_go_head.
Qed.

Lemma zeros_app_inj (a b : nat) (s s' : string) :
  (∀ rest, s ≠ String "0" rest) → (∀ rest, s' ≠ String "0" rest) →
  zeros a +:+ s = zeros b +:+ s' → s = s'.
Proof.
  intros Hs Hs'. revert b. induction a as [|a IH]; intros [|b]; simpl.
  - done.
  - intros Heq. by destruct (Hs (zeros b +:+ s')).
  - intros Heq. by destruct (Hs' (zeros a +:+ s)).
  - intros [= Heq]. by eapply IH.
Qed.

Lemma tick_id_inj (i j : Z) : 0 ≤ i → 0 ≤ j → tick_id i = tick_id j → i = j.
Proof.
  intros Hi Hj. unfold tick_id, fmt_d. intros Heq.
  apply (inj (String.app "TICK-")) in Heq.
  apply zeros_app_inj in Heq.
  - apply (inj pretty) in Heq. lia.
  - intros rest. apply pretty_Z_head. lia.
  - intros rest. apply pretty_Z_head. lia.
Qed.

Section GeneratorCount.
Context `{RandomState G}.

Lemma insert_loop_exact base_date indices g db db' t :
  insert_loop base_date indices g db = Ok db' →
  tickets db = Some t →
  NoDup indices → (∀ i, i ∈ indices → 0 ≤ i) →
  (∀ i, i ∈ indices → tick_id i ∉ (ticket_id ∘ snd) <$> rows t) →
  ∃ t' new,
    tickets db' = Some t'
    ∧ rows t' = (rows t ++ new)%list
    ∧ (ticket_id ∘ snd) <$> new = tick_id <$> indices.
Proof.
  revert g db t. induction indices as [|i indices IH]; intros g db t; simpl.
  - intros [= <-] Ht _ _ _. exists t, []. by rewrite app_nil_r.
  - intros Hrun Ht [Hi Hnd]%NoDup_cons Hpos Hfresh.
    apply bind_Ok in Hrun as ([r g1] & Hsample & Hrun).
    apply bind_Ok in Hrun as (db1 & Hins & Hrun).
    apply sample_ticket_id in Hsample.
    apply execute_insert_inv in Hins as (t0 & Ht0 & Ht1 & _).
    assert (t0 = t) as -> by congruence.
    destruct (insert_or_ignore_rows r t) as [[_ Hin]|(v & Hadd & _)].
    { exfalso. rewrite Hsample in Hin. revert Hin. apply Hfresh. by left. }
    destruct (IH _ _ _ Hrun Ht1 Hnd) as (t' & new & Ht' & Hrows & Hids).
    + intros j Hj. apply Hpos. by right.
    + intros j Hj. rewrite Hadd, fmap_app, elem_of_app. intros [Hold|Hnew].
      * revert Hold. apply Hfresh. by right.
      * simpl in Hnew. apply list_elem_of_singleton in Hnew.
        rewrite Hsample in Hnew. apply tick_id_inj in Hnew.
        -- by subst.
        -- apply Hpos. by right.
        -- apply Hpos. by left.
    + exists t', ((v, r) :: new). split; [done|].
      split; [by rewrite Hrows, Hadd, <- app_assoc|].
      rewrite !fmap_cons, Hids. simpl. by rewrite Hsample.
Qed.

(** On a table that holds none of the identifiers TICK-0001, TICK-0002,
    ... up to [n_tickets], [insert_sample_tickets] stores exactly
    [n_tickets] new rows, one per identifier and in that order, behind the
    rows that were there. *)
Theorem insert_sample_tickets_exact now n self self' db t :
  insert_sample_tickets now n self = Ok (tt, self') →
  conn self = Some db → tickets db = Some t →
  (∀ i, 0 ≤ i < n → tick_id i ∉ (ticket_id ∘ snd) <$> rows t) →
  ∃ db' t' new,
    conn self' = Some db'
    ∧ tickets db' = Some t'
    ∧ rows t' = (rows t ++ new)%list
    ∧ (ticket_id ∘ snd) <$> new = tick_id <$> range n
    ∧ length new = Z.to_nat n.
Proof.
  intros (base_date & db0 & db' & Hc0 & Hloop & Hc' & _)%insert_sample_tickets_inv
    Hc Ht Hfresh.
  assert (db0 = db) as -> by congruence.
  destruct (insert_loop_exact _ _ _ _ _ _ Hloop Ht)
    as (t' & new & Ht' & Hrows & Hids).
  - unfold range. apply (NoDup_fmap_2 _), NoDup_seq.
  - intros i Hi%elem_of_range. lia.
  - intros i Hi%elem_of_range. by apply Hfresh.
  - exists db', t', new. split; [done|]. split; [done|]. split; [done|].
    split; [done|].
    apply (f_equal length) in Hids.
    by rewrite !length_fmap, length_range in Hids.
Qed.

(** The pipeline of [main] on a database without tables: after
    [create_tables] and [insert_sample_tickets], the snapshot of
    [calculate_metrics] counts exactly the tickets asked for, none for a
    negative number, and its grouped counts add up to the same. *)
Theorem generated_total now n self self1 self2 db :
  conn self = Some db → tickets db = None →
  create_tables self = Ok (tt, self1) →
  insert_sample_tickets now n self1 = Ok (tt, self2) →
  ∃ m self3,
    calculate_metrics self2 = Ok (m, self3)
    ∧ total_tickets m = Z.max 0 n
    ∧ counts_total (tickets_por_categoria m) = Z.max 0 n.
Proof.
  intros Hc Ht Hcreate Hinsert.
  unfold create_tables, cursor in Hcreate. rewrite Hc in Hcreate.
  simpl in Hcreate. rewrite Ht in Hcreate. simpl in Hcreate.
  injection Hcreate as <-.
  edestruct (insert_sample_tickets_exact now n) as
    (db2 & t2 & new & Hc2 & Ht2 & Hrows & _ & Hlen);
    [exact Hinsert|reflexivity|reflexivity| |].
  { intros i _ Hin. exact (proj1 (elem_of_nil _) Hin). }
  destruct (calculate_metrics_frame _ _ _ Hc2 Ht2) as (m & self3 & Hrun & Hm).
  exists m, self3. split; [done|].
  apply metrics_of_frame_fields in Hm
    as (-> & _ & _ & _ & _ & _ & _ & -> & _).
  rewrite value_counts_total. unfold len.
  rewrite !length_fmap, Hrows. simpl. rewrite Hlen. lia.
Qed.
End GeneratorCount.

Lemma insert_sample_tickets_exact_witness :
  ∃ db' t' new,
    conn sampled_analyzer = Some db'
    ∧ tickets db' = Some t'
    ∧ rows t' = (rows (table_of []) ++ new)%list
    ∧ length new = 6%nat.
Proof.
  assert (Hrun : @insert_sample_tickets Z lcg_random (noon (ymd 2024 6 1)) 6
                   (analyzer_on []) = Ok (tt, sampled_analyzer))
    by (vm_compute; reflexivity).
  destruct (insert_sample_tickets_exact (noon (ymd 2024 6 1)) 6
              (analyzer_on []) sampled_analyzer (database_of [])
              (table_of []) Hrun eq_refl eq_refl)
    as (db' & t' & new & H1 & H2 & H3 & _ & H4).
  - intros i _ Hin. exact (proj1 (elem_of_nil _) Hin).
  - exists db', t', new. exact (conj H1 (conj H2 (conj H3 H4))).
Defined.

Lemma generated_total_witness :
  ∃ m self3,
    calculate_metrics generated_analyzer = Ok (m, self3)
    ∧ total_tickets m = 3.
Proof.
  assert (Hcreate : create_tables analyzer_fresh = Ok (tt, created_analyzer))
    by (vm_compute; reflexivity).
  assert (Hrun : @insert_sample_tickets Z lcg_random (noon (ymd 2024 6 1)) 3
                   created_analyzer = Ok (tt, generated_analyzer))
    by (vm_compute; reflexivity).
  destruct (generated_total (H := lcg_random) (noon (ymd 2024 6 1)) 3
              analyzer_fresh created_analyzer generated_analyzer
              {| tickets := None; metricas_diarias := None |}
              eq_refl eq_refl Hcreate Hrun)
    as (m & self3 & Hcalc & Htot & _).
  exists m, self3. exact (conj Hcalc Htot).
Defined.
